(** * Electronic Hardware Dealer API

    A shallow embedding of the request handlers of [main.py] and of the
    entity schemas of [schemas.py], and the properties of the handlers.

    - Python [int] is [Z]; Python [float] is IEEE 754 binary64, taken from
      the Standard Library's executable specification [spec_float]
      (precision 53, maximal exponent 1024, round to nearest even).
    - Python [str] is [string]; one [ascii] stands for one character.
    - A handler is a computation over the [World] (the store handle and the
      process's standard output) that returns a value or raises. *)

From Stdlib Require Import ZArith NArith SpecFloat Ascii String.
From stdpp Require Import base option strings list gmap.

Local Open Scope Z_scope.

(** ** Exceptions and results *)

Inductive exception :=
| HTTPException (status_code : Z) (detail : string)
| RequestValidationError   (* FastAPI: the body does not fit its model (422) *)
| ValidationError          (* pydantic: a model constructor rejects its fields *)
| OverflowError            (* int too large to convert to float *)
| ValueError (msg : string)
| StoreError (msg : string).

Inductive result (A : Type) :=
| Ok (a : A)
| Raise (e : exception).
Arguments Ok {A} a.
Arguments Raise {A} e.

Definition rbind {A B} (r : result A) (k : A → result B) : result B :=
  match r with
  | Ok a => k a
  | Raise e => Raise e
  end.

Declare Scope py_scope.
Delimit Scope py_scope with py.
Notation "'let?' x := r 'in' k" := (rbind r (fun x => k))
  (at level 10, x pattern, r at level 100, k at level 200) : py_scope.
Local Open Scope py_scope.

(** ** Python numbers *)

Module Py.

Definition float := spec_float.
Definition prec : Z := 53.
Definition emax : Z := 1024.

Definition fadd : float → float → float := SFadd prec emax.
Definition fmul : float → float → float := SFmul prec emax.
Definition fleb : float → float → bool := SFleb.
Definition fltb : float → float → bool := SFltb.

(** The double nearest to [m * 2^e]; [float_lit 11 (-1)] is [5.5]. *)
Definition float_lit (m e : Z) : float := binary_normalize prec emax m e false.
Definition fzero : float := S754_zero false.

(** A value of the numeric tower as the handlers meet it. *)
Inductive number :=
| PyInt (z : Z)
| PyFloat (f : float).

(** [float(n)] for an [int]: correctly rounded, and [OverflowError] when
    the rounded value is out of range. *)
Definition float_of_int (z : Z) : result float :=
  match binary_normalize prec emax z 0 false with
  | S754_infinity _ => Raise OverflowError
  | f => Ok f
  end.

Definition to_float (a : number) : result float :=
  match a with
  | PyInt z => float_of_int z
  | PyFloat f => Ok f
  end.

(** [a + b] and [a * b]: an [int] operand is converted when the other
    is a [float]. *)
Definition add (a b : number) : result number :=
  match a, b with
  | PyInt x, PyInt y => Ok (PyInt (x + y))
  | _, _ =>
      let? x := to_float a in
      let? y := to_float b in
      Ok (PyFloat (fadd x y))
  end.

Definition mul (a b : number) : result number :=
  match a, b with
  | PyInt x, PyInt y => Ok (PyInt (x * y))
  | _, _ =>
      let? x := to_float a in
      let? y := to_float b in
      Ok (PyFloat (fmul x y))
  end.

(** [sum(f(i) for i in items)]: from the integer [0], left to right; the
    generator computes each term just before it is added. *)
Fixpoint sum_from {A} (acc : number) (f : A → result number) (items : list A)
  : result number :=
  match items with
  | [] => Ok acc
  | i :: rest =>
      let? x := f i in
      let? acc' := add acc x in
      sum_from acc' f rest
  end.

Definition sum {A} (f : A → result number) (items : list A) : result number :=
  sum_from (PyInt 0) f items.

(** Truth value of an [Optional[str]]: [None] and [""] are false. *)
Definition truthy (o : option string) : bool :=
  match o with
  | Some s => negb (String.eqb s "")
  | None => false
  end.

End Py.

(** ** JSON values

    What a request body holds, what an entity is serialized to and what
    a response is made of. *)
#[warnings="-register-all"]
Inductive value :=
| VNone
| VBool (b : bool)
| VInt (z : Z)
| VFloat (f : Py.float)
| VStr (s : string)
| VList (l : list value)
| VDict (d : list (string * value)).

Definition VOpt (o : option string) : value := from_option VStr VNone o.

Definition VNum (a : Py.number) : value :=
  match a with
  | Py.PyInt z => VInt z
  | Py.PyFloat f => VFloat f
  end.

Definition finite (f : Py.float) : bool :=
  match f with
  | S754_zero _ | S754_finite _ _ _ => true
  | S754_infinity _ | S754_nan => false
  end.

(** [json.dumps(v, allow_nan=False)] renders [v]: it raises [ValueError]
    on a float that is NaN or infinite, wherever it sits. *)
Fixpoint json_compliant (v : value) : bool :=
  match v with
  | VFloat f => finite f
  | VList l => forallb json_compliant l
  | VDict d => forallb (λ kv, json_compliant (snd kv)) d
  | _ => true
  end.

(** [EmailStr]: the check is the one of the email-validator library,
    which is not among the sources. It is an argument of what depends on
    it: what the library makes of a string, the normalized address, or
    [None] when the string is no address. *)
Definition EmailStr : Type := string → option string.

(** ** Field constraints of [schemas.py] *)

(** [Field(..., ge=0)] on a [float]: the check [value >= 0], which a NaN
    fails and which both zeros and [+inf] pass. *)
Definition ge0 (f : Py.float) : bool := Py.fleb Py.fzero f.

(** ** Entity schemas *)

Module User.
Record t := {
  name : string;
  email : string;
  hashed_password : string;
  role : string;
  is_active : bool }.
(** [User(name=..., email=..., hashed_password=...)] with the defaults. *)
Definition new (name email hashed_password : string) : t :=
  {| name := name; email := email; hashed_password := hashed_password;
     role := "customer"; is_active := true |}.
End User.

Module Category.
Record t := {
  name : string;
  parent_id : option string;
  description : option string }.
End Category.

Module Product.
Record t := {
  name : string;
  description : option string;
  price : Py.float;
  sku : option string;
  image_url : option string;
  category_id : string;
  subcategory_id : option string;
  in_stock : bool;
  stock_qty : option Z }.
Definition valid (p : t) : bool :=
  ge0 (price p) && from_option (Z.leb 0) true (stock_qty p).
(** The inputs that fail a check, as the validation error lists them. *)
Definition errors (p : t) : list value :=
  (if ge0 (price p) then [] else [VFloat (price p)])
  ++ match stock_qty p with
     | Some n => if 0 <=? n then [] else [VInt n]
     | None => []
     end.
End Product.

Module OrderItem.
Record t := {
  product_id : string;
  name : string;
  quantity : Z;
  unit_price : Py.float }.
Definition valid (i : t) : bool :=
  (1 <=? quantity i) && ge0 (unit_price i).
(** The inputs that fail a check, as the validation error lists them. *)
Definition errors (i : t) : list value :=
  (if 1 <=? quantity i then [] else [VInt (quantity i)])
  ++ (if ge0 (unit_price i) then [] else [VFloat (unit_price i)]).
End OrderItem.

Module Order.
Record t := {
  user_id : string;
  email : string;
  items : list OrderItem.t;
  subtotal : Py.float;
  tax : Py.float;
  total : Py.float;
  status : string;
  notes : option string;
  shipping_name : option string;
  shipping_address : option string;
  shipping_phone : option string }.

(** The constructor call of [place_order]: numbers are coerced to
    [float], the three [ge=0] bounds are checked, [status] takes its
    default. The items are model instances already and are kept. *)
Definition new (user_id email : string) (items : list OrderItem.t)
    (subtotal tax total : Py.number)
    (notes shipping_name shipping_address shipping_phone : option string)
  : result t :=
  let? s := Py.to_float subtotal in
  let? x := Py.to_float tax in
  let? t := Py.to_float total in
  if ge0 s && ge0 x && ge0 t then
    Ok {| user_id := user_id; email := email; items := items;
          subtotal := s; tax := x; total := t; status := "placed";
          notes := notes; shipping_name := shipping_name;
          shipping_address := shipping_address;
          shipping_phone := shipping_phone |}
  else Raise ValidationError.
End Order.

(** ** Request bodies of [main.py] *)

Module LoginRequest.
Record t := { email : string; password : string }.
End LoginRequest.

Module SignupRequest.
Record t := { name : string; email : string; password : string }.
End SignupRequest.

Module PlaceOrderRequest.
Record t := {
  user_id : string;
  email : string;
  items : list OrderItem.t;
  notes : option string;
  shipping_name : option string;
  shipping_address : option string;
  shipping_phone : option string }.
(** The bounds of an instance, whose email has passed [EmailStr]
    already: every item fits [OrderItem]; the list itself carries no
    length bound. *)
Definition valid (r : t) : bool := forallb OrderItem.valid (items r).
(** Validation of a body, [email: EmailStr] and [items: List[OrderItem]]:
    the inputs that fail a check, as the validation error lists them. *)
Definition errors (check : EmailStr) (body : t) : list value :=
  (if check (email body) is Some _ then [] else [VStr (email body)])
  ++ (items body ≫= OrderItem.errors).
(** The instance made of a body that passes: the email is normalized. *)
Definition instance (check : EmailStr) (body : t) : t :=
  {| user_id := user_id body;
     email := default (email body) (check (email body));
     items := items body;
     notes := notes body;
     shipping_name := shipping_name body;
     shipping_address := shipping_address body;
     shipping_phone := shipping_phone body |}.
End PlaceOrderRequest.


(** ** Documents *)

(** A document's [_id]: the store's [ObjectId] (twelve bytes, here their
    value as a number), or a string once a handler has stringified it. *)
Inductive ident :=
| ObjectId (n : N)
| IdStr (s : string).

Definition hex_digit (n : N) : ascii :=
  match n with
  | 0 => "0" | 1 => "1" | 2 => "2" | 3 => "3" | 4 => "4" | 5 => "5"
  | 6 => "6" | 7 => "7" | 8 => "8" | 9 => "9" | 10 => "a" | 11 => "b"
  | 12 => "c" | 13 => "d" | 14 => "e" | _ => "f"
  end%N%char.

Fixpoint hex_acc (width : nat) (n : N) (acc : string) : string :=
  match width with
  | O => acc
  | S w => hex_acc w (n / 16)%N (String (hex_digit (n mod 16)%N) acc)
  end.

(** [str(x)] for an [_id]: twenty-four hexadecimal digits for an
    [ObjectId], the string itself for a string. *)
Definition str (i : ident) : string :=
  match i with
  | ObjectId n => hex_acc 24 n ""
  | IdStr s => s
  end.

Record Document (A : Type) := {
  _id : ident;
  fields : A }.
Arguments _id {A} d.
Arguments fields {A} d.

(** [d["_id"] = str(d["_id"])] *)
Definition stringify {A} (d : Document A) : Document A :=
  {| _id := IdStr (str (_id d)); fields := fields d |}.

(** ** [bson.ObjectId(oid)] on a string

    The constructor accepts a [str] of length 24 that [bytes.fromhex]
    accepts, and raises [InvalidId] otherwise. [bytes.fromhex] reads
    pairs of hexadecimal digits and skips ASCII whitespace between
    pairs. *)

Definition is_hex (c : ascii) : bool :=
  let n := N_of_ascii c in
  ((48 <=? n) && (n <=? 57) || (97 <=? n) && (n <=? 102)
   || (65 <=? n) && (n <=? 70))%N.

Definition is_space (c : ascii) : bool :=
  let n := N_of_ascii c in
  ((9 <=? n) && (n <=? 13) || (n =? 32))%N.

Fixpoint fromhex_ok (s : string) : bool :=
  match s with
  | EmptyString => true
  | String a rest =>
      if is_space a then fromhex_ok rest
      else if is_hex a then
        match rest with
        | String b rest' => is_hex b && fromhex_ok rest'
        | EmptyString => false
        end
      else false
  end.

Definition ObjectId_valid (oid : string) : bool :=
  (String.length oid =? 24)%nat && fromhex_ok oid.

(** ** Query filters

    A [filter_dict] maps a field name to a clause: a plain string (the
    field equals it) or [{"$regex": pattern, "$options": options}]. *)

Inductive clause :=
| Equals (v : string)
| Regex (pattern options : string).

(** Regular expressions. The store's engine is Perl-compatible; the
    fragment whose meaning is written out here is a sequence of plain
    characters, each of which stands for itself, and of [.], which
    stands for any character but a newline. A pattern that uses another
    metacharacter, a character that is not ASCII or an option other
    than [i] is outside the fragment: [compile] returns [None] for it,
    and what it means is left to the store's engine. *)
Inductive atom :=
| AnyChar
| Lit (c : ascii).

Definition metachars : list ascii :=
  list_ascii_of_string "\^$.|?*+()[]{}".

Definition is_meta (c : ascii) : bool := existsb (Ascii.eqb c) metachars.

(** A character that a pattern takes literally: an ASCII character
    other than NUL and the metacharacters. *)
Definition plain (c : ascii) : bool :=
  let n := N_of_ascii c in
  ((0 <? n) && (n <? 128))%N && negb (is_meta c).

Fixpoint parse (pattern : string) : option (list atom) :=
  match pattern with
  | EmptyString => Some []
  | String c rest =>
      if Ascii.eqb c "." then cons AnyChar <$> parse rest
      else if plain c then cons (Lit c) <$> parse rest
      else None
  end.

Record regex := {
  caseless : bool;
  atoms : list atom }.

Definition compile (pattern options : string) : option regex :=
  p ← parse pattern;
  if String.eqb options "i" then Some {| caseless := true; atoms := p |}
  else if String.eqb options "" then Some {| caseless := false; atoms := p |}
  else None.

Definition lower (c : ascii) : ascii :=
  let n := N_of_ascii c in
  if ((65 <=? n) && (n <=? 90))%N then ascii_of_N (n + 32) else c.

Definition atom_matches (ci : bool) (a : atom) (c : ascii) : bool :=
  match a with
  | AnyChar => negb (Ascii.eqb c "010")
  | Lit l => if ci then Ascii.eqb (lower l) (lower c) else Ascii.eqb l c
  end.

(** The atoms match a prefix of [s]. *)
Fixpoint match_here (ci : bool) (p : list atom) (s : string) : bool :=
  match p, s with
  | [], _ => true
  | a :: p', String c s' => atom_matches ci a c && match_here ci p' s'
  | _ :: _, EmptyString => false
  end.

(** The atoms match somewhere in [s] (an unanchored search). *)
Fixpoint search_from (ci : bool) (p : list atom) (s : string) : bool :=
  match_here ci p s ||
  match s with
  | EmptyString => false
  | String _ s' => search_from ci p s'
  end.

Definition search (r : regex) (s : string) : bool :=
  search_from (caseless r) (atoms r) s.

(** The store's engine on the patterns outside the fragment: the search
    it makes of a pattern and its options, or [None] when it refuses the
    pattern. *)
Definition engine : Type := string → string → option (string → bool).

(** The search a pattern asks for. *)
Definition searcher (pcre : engine) (pattern options : string)
  : option (string → bool) :=
  match compile pattern options with
  | Some r => Some (search r)
  | None => pcre pattern options
  end.

(** The store takes the clause. *)
Definition clause_supported (pcre : engine) (c : clause) : bool :=
  match c with
  | Equals _ => true
  | Regex pattern options => bool_decide (is_Some (searcher pcre pattern options))
  end.

(** A clause against the value of the field ([None]: the document has no
    such field). *)
Definition clause_matches (pcre : engine) (c : clause) (field : option value)
  : bool :=
  match c, field with
  | Equals v, Some (VStr s) => String.eqb s v
  | Regex pattern options, Some (VStr s) =>
      from_option (λ m, m s) false (searcher pcre pattern options)
  | _, _ => false
  end.

Definition filter_supported (pcre : engine) (filter_dict : gmap string clause)
  : bool :=
  bool_decide (map_Forall (λ _ c, clause_supported pcre c = true) filter_dict).

(** A document matches when every clause of the filter matches. *)
Definition dict_matches (pcre : engine) (filter_dict : gmap string clause)
    (dump : gmap string value) : bool :=
  bool_decide (map_Forall (λ k c, clause_matches pcre c (dump !! k) = true)
                 filter_dict).


(** ** The document store

    [schemas.py]: each model is one collection, named by the lowercase
    class name. *)

(** Modelled from the spec: the store behind [database.py]'s handle,
    which is not among the sources. One sequence of documents per
    collection, in the store's retrieval order, the state of the
    identifier generator, and the store's pattern engine. *)
Record Database := {
  user : list (Document User.t);
  category : list (Document Category.t);
  product : list (Document Product.t);
  order : list (Document Order.t);
  next_id : N;
  pcre : engine }.

Class Schema (A : Type) := {
  collection : string;
  model_dump : A → gmap string value;
  documents : Database → list (Document A);
  with_documents : list (Document A) → Database → Database }.

Definition dump_item (i : OrderItem.t) : value :=
  VDict [("product_id", VStr (OrderItem.product_id i));
         ("name", VStr (OrderItem.name i));
         ("quantity", VInt (OrderItem.quantity i));
         ("unit_price", VFloat (OrderItem.unit_price i))].

#[export] Instance User_schema : Schema User.t := {|
  collection := "user";
  model_dump u :=
    <["name" := VStr (User.name u)]>
    (<["email" := VStr (User.email u)]>
    (<["hashed_password" := VStr (User.hashed_password u)]>
    (<["role" := VStr (User.role u)]>
    (<["is_active" := VBool (User.is_active u)]> ∅))));
  documents := user;
  with_documents l d :=
    {| user := l; category := category d; product := product d;
       order := order d; next_id := next_id d; pcre := pcre d |} |}.

#[export] Instance Category_schema : Schema Category.t := {|
  collection := "category";
  model_dump c :=
    <["name" := VStr (Category.name c)]>
    (<["parent_id" := VOpt (Category.parent_id c)]>
    (<["description" := VOpt (Category.description c)]> ∅));
  documents := category;
  with_documents l d :=
    {| user := user d; category := l; product := product d;
       order := order d; next_id := next_id d; pcre := pcre d |} |}.

#[export] Instance Product_schema : Schema Product.t := {|
  collection := "product";
  model_dump p :=
    <["name" := VStr (Product.name p)]>
    (<["description" := VOpt (Product.description p)]>
    (<["price" := VFloat (Product.price p)]>
    (<["sku" := VOpt (Product.sku p)]>
    (<["image_url" := VOpt (Product.image_url p)]>
    (<["category_id" := VStr (Product.category_id p)]>
    (<["subcategory_id" := VOpt (Product.subcategory_id p)]>
    (<["in_stock" := VBool (Product.in_stock p)]>
    (<["stock_qty" := from_option VInt VNone (Product.stock_qty p)]> ∅))))))));
  documents := product;
  with_documents l d :=
    {| user := user d; category := category d; product := l;
       order := order d; next_id := next_id d; pcre := pcre d |} |}.

#[export] Instance Order_schema : Schema Order.t := {|
  collection := "order";
  model_dump o :=
    <["user_id" := VStr (Order.user_id o)]>
    (<["email" := VStr (Order.email o)]>
    (<["items" := VList (dump_item <$> Order.items o)]>
    (<["subtotal" := VFloat (Order.subtotal o)]>
    (<["tax" := VFloat (Order.tax o)]>
    (<["total" := VFloat (Order.total o)]>
    (<["status" := VStr (Order.status o)]>
    (<["notes" := VOpt (Order.notes o)]>
    (<["shipping_name" := VOpt (Order.shipping_name o)]>
    (<["shipping_address" := VOpt (Order.shipping_address o)]>
    (<["shipping_phone" := VOpt (Order.shipping_phone o)]> ∅))))))))));
  documents := order;
  with_documents l d :=
    {| user := user d; category := category d; product := product d;
       order := l; next_id := next_id d; pcre := pcre d |} |}.

(** The generator moves on to the next identifier. *)
Definition advance (d : Database) : Database :=
  {| user := user d; category := category d; product := product d;
     order := order d; next_id := N.succ (next_id d); pcre := pcre d |}.

Definition doc_matches {A} `{Schema A} (pcre : engine)
    (filter_dict : gmap string clause) (d : Document A) : bool :=
  dict_matches pcre filter_dict (model_dump (fields d)).

(** ** Handlers as computations *)

(** The process state a handler can see or change: the module-level
    handle [db] ([None] when the store was never configured) and what
    has been printed. *)
Record World := {
  db : option Database;
  stdout : list (list value) }.

Definition App (A : Type) : Type := World → result A * World.

Definition ret {A} (a : A) : App A := λ w, (Ok a, w).

Definition raise {A} (e : exception) : App A := λ w, (Raise e, w).

Definition lift {A} (r : result A) : App A := λ w, (r, w).

Definition bind {A B} (m : App A) (k : A → App B) : App B :=
  λ w, match m w with
       | (Ok a, w') => k a w'
       | (Raise e, w') => (Raise e, w')
       end.

Notation "'let*' x := m 'in' k" := (bind m (fun x => k))
  (at level 10, x pattern, m at level 100, k at level 200) : py_scope.

(** [if cond: raise e] *)
Definition raise_if (cond : bool) (e : exception) : App unit :=
  if cond then raise e else ret ().

Definition db_is_None : App bool := λ w, (Ok (bool_decide (db w = None)), w).

(** [print(...)]: one line on standard output, kept as its arguments. *)
Definition print (args : list value) : App unit :=
  λ w, (Ok (), {| db := db w; stdout := stdout w ++ [args] |}).

Definition store_unavailable : exception := StoreError "Database not available".
(** The store's answer to a pattern that its engine refuses. *)
Definition regex_refused : exception :=
  StoreError "Regular expression is invalid".

(** [collection.insert_one(document)]: the store gives the document the
    next identifier and appends it. That a new document comes last in
    retrieval order is a choice of this model: the store promises no
    order. *)
Definition insert_one {A} `{Schema A} (data : A) (d : Database)
  : ident * Database :=
  let oid := ObjectId (next_id d) in
  (oid, with_documents (documents d ++ [{| _id := oid; fields := data |}])
          (advance d)).

(** Modelled from the spec: [create_document] of [database.py], which is
    not among the sources. It serializes the entity to a document,
    inserts it into its collection with a newly assigned identifier and
    returns that identifier as a string; it fails when the store is
    unavailable. *)
Definition create_document {A} `{Schema A} (data : A) : App string :=
  λ w, match db w with
       | None => (Raise store_unavailable, w)
       | Some d =>
           let '(oid, d') := insert_one data d in
           (Ok (str oid), {| db := Some d'; stdout := stdout w |})
       end.

(** Modelled from the spec: [get_documents] of [database.py], which is
    not among the sources. It returns the documents of the collection
    that match the filter (all of them without a filter), capped at
    [limit], whose default is 100, in retrieval order, and leaves the
    store as it is; it fails when the store is unavailable, and when
    the store refuses a pattern of the filter. *)
Definition default_limit : Z := 100.

Definition get_documents {A} `{Schema A}
    (filter_dict : option (gmap string clause)) (limit : option Z)
  : App (list (Document A)) :=
  λ w, match db w with
       | None => (Raise store_unavailable, w)
       | Some d =>
           let f := default ∅ filter_dict in
           if filter_supported (pcre d) f then
             (Ok (take (Z.to_nat (default default_limit limit))
                    (List.filter (doc_matches (pcre d) f) (documents d))), w)
           else (Raise regex_refused, w)
       end.

(** [db[collection].find_one(filter)]: the first document that matches,
    or [None]. *)
Definition find_one {A} `{Schema A} (filter_dict : gmap string clause)
  : App (option (Document A)) :=
  λ w, match db w with
       | None => (Raise store_unavailable, w)
       | Some d =>
           if filter_supported (pcre d) filter_dict then
             (Ok (List.find (doc_matches (pcre d) filter_dict) (documents d)), w)
           else (Raise regex_refused, w)
       end.


(** ** Responses *)

Module SignupResponse.
Record t := { user_id : string; email : string }.
End SignupResponse.

Module LoginResponse.
Record t := { user_id : string; name : string; email : string }.
End LoginResponse.

Module Created.
Record t := { id : string }.
Definition content (r : t) : value := VDict [("id", VStr (id r))].
End Created.

Module OrderPlaced.
Record t := { order_id : string; total : Py.number }.
Definition content (r : t) : value :=
  VDict [("order_id", VStr (order_id r)); ("total", VNum (total r))].
End OrderPlaced.

(** ** The handlers of [main.py] *)

Definition not_configured : exception :=
  HTTPException 500 "Database not configured".

(** The guard that opens every handler. *)
Definition require_db : App unit :=
  let* none := db_is_None in
  raise_if none not_configured.

Definition by_email (email : string) : gmap string clause :=
  {[ "email" := Equals email ]}.

Definition signup (payload : SignupRequest.t) : App SignupResponse.t :=
  let* _ := require_db in
  let* existing := find_one (A := User.t) (by_email (SignupRequest.email payload)) in
  let* _ := raise_if (bool_decide (is_Some existing))
              (HTTPException 400 "Email already registered") in
  let user := User.new (SignupRequest.name payload) (SignupRequest.email payload)
                (SignupRequest.password payload) in
  let* user_id := create_document user in
  ret {| SignupResponse.user_id := user_id;
         SignupResponse.email := SignupRequest.email payload |}.

(** The two store calls of [signup], each with what surrounds it: the
    lookup with the check of its result, and the insertion with the
    answer. Another request can run between them. *)
Definition signup_lookup (payload : SignupRequest.t) : App unit :=
  let* _ := require_db in
  let* existing := find_one (A := User.t) (by_email (SignupRequest.email payload)) in
  raise_if (bool_decide (is_Some existing))
    (HTTPException 400 "Email already registered").

Definition signup_insert (payload : SignupRequest.t) : App SignupResponse.t :=
  let user := User.new (SignupRequest.name payload) (SignupRequest.email payload)
                (SignupRequest.password payload) in
  let* user_id := create_document user in
  ret {| SignupResponse.user_id := user_id;
         SignupResponse.email := SignupRequest.email payload |}.

Definition login (payload : LoginRequest.t) : App LoginResponse.t :=
  let* _ := require_db in
  let* user := find_one (A := User.t) (by_email (LoginRequest.email payload)) in
  match user with
  | Some u =>
      if negb (String.eqb (User.hashed_password (fields u))
                 (LoginRequest.password payload))
      then raise (HTTPException 401 "Invalid credentials")
      else ret {| LoginResponse.user_id := str (_id u);
                  LoginResponse.name := User.name (fields u);
                  LoginResponse.email := User.email (fields u) |}
  | None => raise (HTTPException 401 "Invalid credentials")
  end.

(** [by_parent.setdefault(parent, []).append(c)] *)
Definition setdefault_append {A} (parent : option string) (c : A)
    (by_parent : gmap (option string) (list A)) : gmap (option string) (list A) :=
  <[parent := default [] (by_parent !! parent) ++ [c]]> by_parent.

Definition list_categories
  : App (gmap (option string) (list (Document Category.t))) :=
  let* _ := require_db in
  let* cats := get_documents (A := Category.t) None None in
  ret (foldl (λ by_parent c,
               let c := stringify c in
               let parent := Category.parent_id (fields c) in
               setdefault_append parent c by_parent)
         ∅ cats).

Definition create_category (cat : Category.t) : App Created.t :=
  let* _ := require_db in
  let* new_id := create_document cat in
  ret {| Created.id := new_id |}.

Definition create_product (prod : Product.t) : App Created.t :=
  let* _ := require_db in
  let* _ := if negb (String.eqb (Product.category_id prod) "")
            then raise_if (negb (ObjectId_valid (Product.category_id prod)))
                   (HTTPException 400 "Invalid category_id")
            else ret () in
  let* doc_id := create_document prod in
  ret {| Created.id := doc_id |}.

(** [if param: filter_dict[key] = make(param)] *)
Definition set_if (param : option string) (key : string)
    (make : string → clause) (filter_dict : gmap string clause)
  : gmap string clause :=
  match param with
  | Some s => if Py.truthy param then <[key := make s]> filter_dict else filter_dict
  | None => filter_dict
  end.

Definition products_filter (category_id subcategory_id q : option string)
  : gmap string clause :=
  let filter_dict := ∅ in
  let filter_dict := set_if category_id "category_id" Equals filter_dict in
  let filter_dict := set_if subcategory_id "subcategory_id" Equals filter_dict in
  let filter_dict := set_if q "name" (λ q, Regex q "i") filter_dict in
  filter_dict.

Definition list_products (category_id subcategory_id q : option string)
    (limit : Z) : App (list (Document Product.t)) :=
  let* _ := require_db in
  let filter_dict := products_filter category_id subcategory_id q in
  let* prods := get_documents (A := Product.t) (Some filter_dict) (Some limit) in
  ret (stringify <$> prods).

(** [limit: int = 100]: the query parameter and its default. *)
Definition get_products (category_id subcategory_id q : option string)
    (limit : option Z) : App (list (Document Product.t)) :=
  list_products category_id subcategory_id q (default 100 limit).

Definition line_total (i : OrderItem.t) : result Py.number :=
  Py.mul (Py.PyInt (OrderItem.quantity i)) (Py.PyFloat (OrderItem.unit_price i)).

Definition place_order (payload : PlaceOrderRequest.t) : App OrderPlaced.t :=
  let* _ := require_db in
  let* subtotal := lift (Py.sum line_total (PlaceOrderRequest.items payload)) in
  let tax := Py.PyInt 0 in
  let* total := lift (Py.add subtotal tax) in
  let* order := lift (Order.new
                        (PlaceOrderRequest.user_id payload)
                        (PlaceOrderRequest.email payload)
                        (PlaceOrderRequest.items payload)
                        subtotal tax total
                        (PlaceOrderRequest.notes payload)
                        (PlaceOrderRequest.shipping_name payload)
                        (PlaceOrderRequest.shipping_address payload)
                        (PlaceOrderRequest.shipping_phone payload)) in
  let* order_id := create_document order in
  let* _ := print [VStr "New order placed";
                   VDict [("order_id", VStr order_id);
                          ("email", VStr (PlaceOrderRequest.email payload));
                          ("total", VNum total)]] in
  ret {| OrderPlaced.order_id := order_id; OrderPlaced.total := total |}.

(** ** Endpoints

    FastAPI validates a request body against the handler's parameter
    model and calls the handler with the instance. When a check fails
    the handler is not called: the answer is 422, and its body lists
    each failed check with the input that failed it. That body, and
    what a handler returns, are rendered as JSON, which raises
    [ValueError] on a float that is NaN or infinite (the reader of the
    request accepts them). The fields of a body have their types here, so
    the checks that can fail are the bounds and the email. *)
Definition not_json_compliant : exception :=
  ValueError "Out of range float values are not JSON compliant".

Definition render {B} (content : B → value) (b : B) : App B :=
  if json_compliant (content b) then ret b else raise not_json_compliant.

Definition endpoint {A B} (errors : A → list value) (instance : A → A)
    (content : B → value) (handler : A → App B) (body : A) : App B :=
  match errors body with
  | [] =>
      let* b := handler (instance body) in
      render content b
  | inputs =>
      if forallb json_compliant inputs then raise RequestValidationError
      else raise not_json_compliant
  end.

Definition post_orders (check : EmailStr)
  : PlaceOrderRequest.t → App OrderPlaced.t :=
  endpoint (PlaceOrderRequest.errors check) (PlaceOrderRequest.instance check)
    OrderPlaced.content place_order.

Definition post_products : Product.t → App Created.t :=
  endpoint Product.errors id Created.content create_product.

(** The status of the answer: an [HTTPException] carries its own, a
    validation error is answered 422, any other exception 500. *)
Definition status_code {A} (r : result A) : Z :=
  match r with
  | Ok _ => 200
  | Raise (HTTPException status _) => status
  | Raise RequestValidationError => 422
  | Raise _ => 500
  end.


(** * Specification vocabulary *)

(** A world whose store is available. *)
Definition online (d : Database) (out : list (list value)) : World :=
  {| db := Some d; stdout := out |}.

(** ** Users *)

(** The user document a lookup by email yields: the first one, in
    retrieval order, whose email is the given one. *)
Definition stored_user (d : Database) (email : string)
  : option (Document User.t) :=
  List.find (λ u, String.eqb (User.email (fields u)) email) (user d).

(** ** Categories *)

(** The categories of a sequence whose [parent_id] is [parent], in order. *)
Definition members (parent : option string) (cats : list (Document Category.t))
  : list (Document Category.t) :=
  List.filter (λ c, bool_decide (Category.parent_id (fields c) = parent)) cats.

(** A key is present exactly when its group is not empty. *)
Definition group_of (parent : option string) (cats : list (Document Category.t))
  : option (list (Document Category.t)) :=
  match members parent cats with
  | [] => None
  | g => Some g
  end.

(** What a key holds once [cats] have been added to a mapping in which
    it held [o]. *)
Definition extend_group (o : option (list (Document Category.t)))
    (g : list (Document Category.t)) : option (list (Document Category.t)) :=
  match g with
  | [] => o
  | _ => Some (default [] o ++ g)
  end.

(** ** Products *)

(** The search that [{"$regex": pattern, "$options": "i"}] asks for when
    the pattern is of the fragment. *)
Definition regex_search_i (pattern s : string) : bool :=
  from_option (λ r, search r s) false (compile pattern "i").

(** The products a listing selects when [q] is of the fragment: each
    parameter that is given (not [None], not empty) constrains its
    field. *)
Definition selected (category_id subcategory_id q : option string)
    (p : Product.t) : bool :=
  (if Py.truthy category_id
   then String.eqb (Product.category_id p) (default "" category_id) else true)
  && (if Py.truthy subcategory_id
      then from_option (λ s, String.eqb s (default "" subcategory_id)) false
             (Product.subcategory_id p)
      else true)
  && (if Py.truthy q then regex_search_i (default "" q) (Product.name p) else true).

(** The store takes the pattern of a listing: no pattern is asked for,
    or its engine makes a search of it. *)
Definition takes (re : engine) (q : option string) : bool :=
  if Py.truthy q
  then bool_decide (is_Some (searcher re (default "" q) "i"))
  else true.

(** The products a listing selects in a store whose engine is [re]. *)
Definition selects (re : engine) (category_id subcategory_id q : option string)
    (p : Product.t) : bool :=
  (if Py.truthy category_id
   then String.eqb (Product.category_id p) (default "" category_id) else true)
  && (if Py.truthy subcategory_id
      then from_option (λ s, String.eqb s (default "" subcategory_id)) false
             (Product.subcategory_id p)
      else true)
  && (if Py.truthy q
      then from_option (λ m, m (Product.name p)) false
             (searcher re (default "" q) "i")
      else true).

Fixpoint casefold (s : string) : string :=
  match s with
  | EmptyString => EmptyString
  | String c r => String (lower c) (casefold r)
  end.

(** [hay] contains [needle] in some letter-case. *)
Definition contains_ci (needle hay : string) : Prop :=
  ∃ pre mid post, hay = pre +:+ mid +:+ post ∧ casefold mid = casefold needle.

(** A pattern of plain characters: no metacharacter in it. *)
Fixpoint literal (s : string) : bool :=
  match s with
  | EmptyString => true
  | String c r => plain c && literal r
  end.

Fixpoint literals (s : string) : list atom :=
  match s with
  | EmptyString => []
  | String c r => Lit c :: literals r
  end.

(** ** Orders *)

(** [quantity * unit_price] in binary64. *)
Definition line (i : OrderItem.t) : Py.float :=
  Py.fmul (Py.float_lit (OrderItem.quantity i) 0) (OrderItem.unit_price i).

(** The sum over the items of [quantity * unit_price], accumulated from
    zero in the order of the items. *)
Definition subtotal_of (items : list OrderItem.t) : Py.float :=
  foldl Py.fadd Py.fzero (line <$> items).

(** The total that is answered for the items of a request that fits its
    model: the integer 0 of an empty sum, and the subtotal otherwise,
    as the tax is 0. *)
Definition total_of (items : list OrderItem.t) : Py.number :=
  match items with
  | [] => Py.PyInt 0
  | _ => Py.PyFloat (subtotal_of items)
  end.

(** The quantity has a [float]: converting it does not overflow. *)
Definition converts (q : Z) : bool :=
  match Py.float_of_int q with
  | Ok _ => true
  | Raise _ => false
  end.

(** The world after [place_order] has stored [o] and answered [total]. *)
Definition placed (d : Database) (out : list (list value))
    (o : Order.t) (total : Py.number) : World :=
  {| db := Some (snd (insert_one o d));
     stdout := out ++ [[VStr "New order placed";
                        VDict [("order_id", VStr (str (ObjectId (next_id d))));
                               ("email", VStr (Order.email o));
                               ("total", VNum total)]]] |}.

(** The items break a bound of [OrderItem]. *)
Definition breaks_bound (i : OrderItem.t) : Prop :=
  OrderItem.quantity i < 1
  ∨ Py.fltb (OrderItem.unit_price i) Py.fzero = true
  ∨ OrderItem.unit_price i = S754_nan.

(** A float that breaks the bound [ge=0] and that JSON has no number for:
    NaN and minus infinity. The validation error cannot show it. *)
Definition unprintable (f : Py.float) : Prop :=
  f = S754_nan ∨ f = S754_infinity true.

Definition unprintable_price (body : PlaceOrderRequest.t) : Prop :=
  Exists (λ i, unprintable (OrderItem.unit_price i))
    (PlaceOrderRequest.items body).

(** The body fails a check of [PlaceOrderRequest]: the email is no
    address, or an item breaks a bound. *)
Definition fails_validation (check : EmailStr) (body : PlaceOrderRequest.t)
  : Prop :=
  check (PlaceOrderRequest.email body) = None
  ∨ Exists breaks_bound (PlaceOrderRequest.items body).

(** ** Floats by sign *)

Definition signed (s : bool) (x : Py.float) : Prop :=
  match x with
  | S754_nan => False
  | S754_zero s' | S754_infinity s' | S754_finite s' _ _ => s' = s
  end.

Definition nonneg (x : Py.float) : bool :=
  match x with
  | S754_zero _ | S754_infinity false | S754_finite false _ _ => true
  | _ => false
  end.

Definition positive_finite (x : Py.float) : Prop :=
  match x with
  | S754_finite false _ _ => True
  | _ => False
  end.

Definition nonzero (x : Py.float) : Prop :=
  match x with
  | S754_finite _ _ _ | S754_infinity _ => True
  | _ => False
  end.

(** The mantissa of a shift record is positive and has [d] binary digits. *)
Definition has_digits (mrs : shr_record) (d : Z) : Prop :=
  ∃ m, shr_m mrs = Z.pos m ∧ Z.pos (digits2_pos m) = d.


(** * Sample data *)

(** An engine that takes no pattern beyond the fragment: the sample
    stores are searched with patterns of the fragment only. *)
Definition fragment_only : engine := λ _ _, None.

Definition empty_store : Database :=
  {| user := []; category := []; product := []; order := []; next_id := 0;
     pcre := fragment_only |}.

Definition fresh : World := online empty_store [].

(** A stand-in for the library's check in the examples: a string with an
    [@] is an address, and is its own normal form. The examples use
    "ann@example.com", which the library takes as it is, and
    "not-an-email", which it refuses. *)
Definition sample_check : EmailStr :=
  λ s, if existsb (Ascii.eqb "@") (list_ascii_of_string s) then Some s else None.

(** ** An order of two lines, and one whose quantity has no [float] *)

Definition item (quantity : Z) (unit_price : Py.float) : OrderItem.t :=
  {| OrderItem.product_id := "p-1"; OrderItem.name := "part";
     OrderItem.quantity := quantity; OrderItem.unit_price := unit_price |}.

Definition order_request (items : list OrderItem.t) : PlaceOrderRequest.t :=
  {| PlaceOrderRequest.user_id := "u-1";
     PlaceOrderRequest.email := "ann@example.com";
     PlaceOrderRequest.items := items;
     PlaceOrderRequest.notes := None;
     PlaceOrderRequest.shipping_name := None;
     PlaceOrderRequest.shipping_address := None;
     PlaceOrderRequest.shipping_phone := None |}.

(** A body whose email is no address. *)
Definition no_address (items : list OrderItem.t) : PlaceOrderRequest.t :=
  {| PlaceOrderRequest.user_id := "u-1";
     PlaceOrderRequest.email := "not-an-email";
     PlaceOrderRequest.items := items;
     PlaceOrderRequest.notes := None;
     PlaceOrderRequest.shipping_name := None;
     PlaceOrderRequest.shipping_address := None;
     PlaceOrderRequest.shipping_phone := None |}.

(** [[{quantity: 2, unit_price: 10.0}, {quantity: 1, unit_price: 5.5}]] *)
Definition two_lines : list OrderItem.t :=
  [item 2 (Py.float_lit 10 0); item 1 (Py.float_lit 11 (-1))].

(** [25.5] *)
Definition f25_5 : Py.float := Py.float_lit 51 (-1).

Definition huge_quantity : list OrderItem.t := [item (2 ^ 1024) (Py.float_lit 1 0)].

(** ** A user *)

Definition ann : SignupRequest.t :=
  {| SignupRequest.name := "Ann"; SignupRequest.email := "ann@example.com";
     SignupRequest.password := "secret" |}.

Definition ann_login (password : string) : LoginRequest.t :=
  {| LoginRequest.email := "ann@example.com"; LoginRequest.password := password |}.

Definition ann_signed_up : World := snd (signup ann fresh).

(** ** Categories A (a root), B under A, C under B *)

Definition cat (name : string) (parent_id : option string) : Category.t :=
  {| Category.name := name; Category.parent_id := parent_id;
     Category.description := None |}.

Definition id_A : string := str (ObjectId 0).
Definition id_B : string := str (ObjectId 1).
Definition id_C : string := str (ObjectId 2).

Definition doc_A : Document Category.t := {| _id := IdStr id_A; fields := cat "A" None |}.
Definition doc_B : Document Category.t :=
  {| _id := IdStr id_B; fields := cat "B" (Some id_A) |}.
Definition doc_C : Document Category.t :=
  {| _id := IdStr id_C; fields := cat "C" (Some id_B) |}.

Definition three_categories : World :=
  snd (create_category (cat "C" (Some id_B))
    (snd (create_category (cat "B" (Some id_A))
      (snd (create_category (cat "A" None) fresh))))).

(** ** Products *)

Definition gadget (name category_id : string) : Product.t :=
  {| Product.name := name; Product.description := None;
     Product.price := Py.float_lit 1 0; Product.sku := None;
     Product.image_url := None; Product.category_id := category_id;
     Product.subcategory_id := None; Product.in_stock := true;
     Product.stock_qty := None |}.

Definition hub_only : World := snd (create_product (gadget "hub" "") fresh).

Definition hub_doc : Document Product.t :=
  {| _id := IdStr (str (ObjectId 0)); fields := gadget "hub" "" |}.

Definition cable_and_hub : World :=
  snd (create_product (gadget "USB Cable" "") hub_only).

Definition cable_doc : Document Product.t :=
  {| _id := IdStr (str (ObjectId 1)); fields := gadget "USB Cable" "" |}.

(** * Effects *)

(** A computation that leaves the world as it found it. *)
Definition read_only {A} (m : App A) : Prop := ∀ w, snd (m w) = w.

(** A computation that never raises the exception [e]. *)
Definition never_raises {A} (e : exception) (m : App A) : Prop :=
  ∀ w, fst (m w) ≠ Raise e.


(** A pure computation that can only fail by overflow. *)
Definition only_overflow {A} (r : result A) : Prop :=
  ∀ e, r = Raise e → e = OverflowError.

Arguments str : simpl never.


(** * The remaining handlers *)

(** ** [GET /] *)

Definition root : App string := ret "Electronic Hardware Dealer API".

(** ** [GET /test]

    The handler asks the driver for the store's name and for its
    collection names, and the process environment for two variables.
    The driver's answers are arguments here: [db.name] (or [None] when
    the handle has no such attribute), and the reply of
    [db.list_collection_names()], which is a list of names or an
    exception, of which the handler keeps [str(e)]. Reading the
    attribute is taken not to raise, so the outer handler is never
    entered. The check marks are kept as the bytes of their UTF-8
    encoding; they are never sliced. *)

Inductive driver_reply :=
| Names (collections : list string)
| Failed (message : string).

Record Driver := {
  name_attr : Database → option string;
  list_collection_names : Database → driver_reply }.

Module TestResponse.
Record t := {
  backend : string;
  database : string;
  database_url : option string;
  database_name : option string;
  connection_status : string;
  collections : list string }.
End TestResponse.

(** [os.getenv(key)] read as a condition: unset and empty are false. *)
Definition getenv_truthy (environ : gmap string string) (key : string) : bool :=
  Py.truthy (environ !! key).

(** The [try] block: the response after it, from the initial one. *)
Definition probe (driver : Driver) (handle : option Database) : TestResponse.t :=
  let response :=
    {| TestResponse.backend := "✅ Running";
       TestResponse.database := "❌ Not Available";
       TestResponse.database_url := None;
       TestResponse.database_name := None;
       TestResponse.connection_status := "Not Connected";
       TestResponse.collections := [] |} in
  match handle with
  | Some d =>
      let response :=
        {| TestResponse.backend := TestResponse.backend response;
           TestResponse.database := "✅ Available";
           TestResponse.database_url := Some "✅ Configured";
           TestResponse.database_name :=
             Some (default "✅ Connected" (name_attr driver d));
           TestResponse.connection_status := "Connected";
           TestResponse.collections := TestResponse.collections response |} in
      match list_collection_names driver d with
      | Names collections =>
          {| TestResponse.backend := TestResponse.backend response;
             TestResponse.database := "✅ Connected & Working";
             TestResponse.database_url := TestResponse.database_url response;
             TestResponse.database_name := TestResponse.database_name response;
             TestResponse.connection_status :=
               TestResponse.connection_status response;
             TestResponse.collections := take 10 collections |}
      | Failed message =>
          {| TestResponse.backend := TestResponse.backend response;
             TestResponse.database :=
               "⚠️  Connected but Error: " +:+ String.substring 0 50 message;
             TestResponse.database_url := TestResponse.database_url response;
             TestResponse.database_name := TestResponse.database_name response;
             TestResponse.connection_status :=
               TestResponse.connection_status response;
             TestResponse.collections := TestResponse.collections response |}
      end
  | None =>
      {| TestResponse.backend := TestResponse.backend response;
         TestResponse.database := "⚠️  Available but not initialized";
         TestResponse.database_url := TestResponse.database_url response;
         TestResponse.database_name := TestResponse.database_name response;
         TestResponse.connection_status := TestResponse.connection_status response;
         TestResponse.collections := TestResponse.collections response |}
  end.

Definition test_database (driver : Driver) (environ : gmap string string)
  : App TestResponse.t :=
  λ w,
    let response := probe driver (db w) in
    (Ok {| TestResponse.backend := TestResponse.backend response;
           TestResponse.database := TestResponse.database response;
           TestResponse.database_url :=
             Some (if getenv_truthy environ "DATABASE_URL"
                   then "✅ Set" else "❌ Not Set");
           TestResponse.database_name :=
             Some (if getenv_truthy environ "DATABASE_NAME"
                   then "✅ Set" else "❌ Not Set");
           TestResponse.connection_status :=
             TestResponse.connection_status response;
           TestResponse.collections := TestResponse.collections response |}, w).

(** * More vocabulary *)

(** A world whose store was never configured. *)
Definition offline (out : list (list value)) : World :=
  {| db := None; stdout := out |}.

(** A computation that writes nothing when it raises. *)
Definition all_or_nothing {A} (m : App A) : Prop :=
  ∀ w e, fst (m w) = Raise e → snd (m w) = w.

(** The emails of the stored users, in retrieval order. *)
Definition emails (d : Database) : list string :=
  (User.email ∘ fields) <$> user d.

(** The product breaks a bound of [Product]. *)
Definition breaks_product_bound (p : Product.t) : Prop :=
  Py.fltb (Product.price p) Py.fzero = true
  ∨ Product.price p = S754_nan
  ∨ (∃ n, Product.stock_qty p = Some n ∧ n < 0).

(** Every character is a hexadecimal digit. *)
Fixpoint all_hex (s : string) : bool :=
  match s with
  | EmptyString => true
  | String c r => is_hex c && all_hex r
  end.

(** The line [place_order] prints for an order. *)
Definition order_line (order_id email : string) (total : Py.number) : list value :=
  [VStr "New order placed";
   VDict [("order_id", VStr order_id); ("email", VStr email);
          ("total", VNum total)]].


(** An atom with its literal in lower case. *)
Definition lower_atom (a : atom) : atom :=
  match a with
  | AnyChar => AnyChar
  | Lit c => Lit (lower c)
  end.

(** Case analysis on whether each query parameter is given. *)
Ltac split_given :=
  repeat match goal with
         | |- context [negb (String.eqb ?x "")] => destruct (negb (String.eqb x ""))
         end.

(** * Properties *)

(** * Running a handler *)

Lemma bind_ok {A B} (m : App A) (k : A → App B) w a w' :
  m w = (Ok a, w') → bind m k w = k a w'.
Proof. intros H. unfold bind. by rewrite H. Qed.

Lemma bind_raise {A B} (m : App A) (k : A → App B) w e w' :
  m w = (Raise e, w') → bind m k w = (Raise e, w').
Proof. intros H. unfold bind. by rewrite H. Qed.

Lemma require_db_online d out : require_db (online d out) = (Ok (), online d out).
Proof. reflexivity. Qed.

Lemma require_db_offline w :
  db w = None → require_db w = (Raise not_configured, w).
Proof.
  intros H. unfold require_db, bind, db_is_None, raise_if.
  rewrite H. reflexivity.
Qed.

(** The guard either passes or raises, and changes nothing. *)
Lemma require_db_cases w :
  (∃ d, w = online d (stdout w) ∧ require_db w = (Ok (), w))
  ∨ (db w = None ∧ require_db w = (Raise not_configured, w)).
Proof.
  destruct w as [[d|] out].
  - left. exists d. split; reflexivity.
  - right. split; reflexivity.
Qed.

Lemma find_one_online {A} `{Schema A} f d out :
  filter_supported (pcre d) f = true →
  find_one (A := A) f (online d out)
  = (Ok (List.find (doc_matches (pcre d) f) (documents d)), online d out).
Proof. intros Hf. unfold find_one. simpl. by rewrite Hf. Qed.

Lemma get_documents_online {A} `{Schema A} f limit d out :
  filter_supported (pcre d) (default ∅ f) = true →
  get_documents (A := A) f limit (online d out)
  = (Ok (take (Z.to_nat (default default_limit limit))
           (List.filter (doc_matches (pcre d) (default ∅ f)) (documents d))),
     online d out).
Proof. intros Hf. unfold get_documents. simpl. by rewrite Hf. Qed.

(** Reading leaves the world as it is. *)
Lemma get_documents_world {A} `{Schema A} f limit w :
  snd (get_documents (A := A) f limit w) = w.
Proof.
  unfold get_documents. destruct (db w); [|done].
  by destruct (filter_supported _ _).
Qed.

Lemma create_document_online {A} `{Schema A} (data : A) d out :
  create_document data (online d out)
  = (Ok (str (ObjectId (next_id d))), online (snd (insert_one data d)) out).
Proof. reflexivity. Qed.

(** * Filters *)

Lemma dict_matches_empty re dump : dict_matches re ∅ dump = true.
Proof. apply bool_decide_eq_true, map_Forall_empty. Qed.

Lemma dict_matches_insert re k c f dump :
  f !! k = None →
  dict_matches re (<[k := c]> f) dump
  = clause_matches re c (dump !! k) && dict_matches re f dump.
Proof.
  intros Hk. unfold dict_matches.
  apply eq_true_iff_eq. rewrite andb_true_iff, !bool_decide_eq_true.
  by rewrite map_Forall_insert.
Qed.

Lemma filter_supported_empty re : filter_supported re ∅ = true.
Proof. apply bool_decide_eq_true, map_Forall_empty. Qed.

Lemma filter_supported_insert re k c f :
  f !! k = None →
  filter_supported re (<[k := c]> f)
  = clause_supported re c && filter_supported re f.
Proof.
  intros Hk. unfold filter_supported.
  apply eq_true_iff_eq. rewrite andb_true_iff, !bool_decide_eq_true.
  by rewrite map_Forall_insert.
Qed.

Lemma by_email_matches re e (u : Document User.t) :
  doc_matches re (by_email e) u = String.eqb (User.email (fields u)) e.
Proof.
  unfold doc_matches, by_email.
  rewrite <- insert_empty, dict_matches_insert, dict_matches_empty by done.
  rewrite andb_true_r. reflexivity.
Qed.

Lemma by_email_supported re e : filter_supported re (by_email e) = true.
Proof.
  unfold by_email.
  by rewrite <- insert_empty, filter_supported_insert, filter_supported_empty.
Qed.

Lemma find_by_email e d out :
  find_one (A := User.t) (by_email e) (online d out)
  = (Ok (stored_user d e), online d out).
Proof.
  rewrite find_one_online by apply by_email_supported.
  unfold stored_user. simpl.
  f_equal. f_equal. induction (user d) as [|u l IH]; simpl; [done|].
  rewrite by_email_matches. by destruct (String.eqb _ _).
Qed.

(** * Users *)

Lemma stored_user_None d e :
  stored_user d e = None ↔ ∀ u, u ∈ user d → User.email (fields u) ≠ e.
Proof.
  unfold stored_user. induction (user d) as [|u l IH]; simpl.
  - split; [|done]. intros _ u Hu. by apply elem_of_nil in Hu.
  - destruct (String.eqb_spec (User.email (fields u)) e) as [He|He].
    + split; [done|]. intros Hall. destruct (Hall u); [left|done].
    + rewrite IH. split.
      * intros Hl v [->|Hv]%elem_of_cons; auto.
      * intros Hall v Hv. apply Hall. by right.
Qed.

Lemma stored_user_email d e u :
  stored_user d e = Some u → u ∈ user d ∧ User.email (fields u) = e.
Proof.
  unfold stored_user. induction (user d) as [|v l IH]; simpl; [done|].
  destruct (String.eqb_spec (User.email (fields v)) e) as [He|He].
  - intros [= <-]. split; [left|done].
  - intros [Hu He']%IH. split; [by right|done].
Qed.

(** A fresh email finds the document that is appended for it. *)
Lemma stored_user_appended d e (u : User.t) :
  stored_user d e = None → User.email u = e →
  stored_user (snd (insert_one u d)) e
  = Some {| _id := ObjectId (next_id d); fields := u |}.
Proof.
  unfold stored_user. simpl. intros Hnone He.
  induction (user d) as [|v l IH]; simpl in *.
  - by rewrite He, String.eqb_refl.
  - destruct (String.eqb (User.email (fields v)) e); [done|]. by apply IH.
Qed.

Lemma login_run d out (payload : LoginRequest.t) :
  login payload (online d out)
  = (match stored_user d (LoginRequest.email payload) with
     | Some u =>
         if String.eqb (User.hashed_password (fields u)) (LoginRequest.password payload)
         then Ok {| LoginResponse.user_id := str (_id u);
                    LoginResponse.name := User.name (fields u);
                    LoginResponse.email := User.email (fields u) |}
         else Raise (HTTPException 401 "Invalid credentials")
     | None => Raise (HTTPException 401 "Invalid credentials")
     end, online d out).
Proof.
  unfold login.
  rewrite (bind_ok _ _ _ _ _ (require_db_online d out)).
  rewrite (bind_ok _ _ _ _ _ (find_by_email _ d out)).
  destruct (stored_user d _) as [u|]; [|done].
  by destruct (String.eqb _ _).
Qed.

Lemma signup_run d out (payload : SignupRequest.t) :
  signup payload (online d out)
  = match stored_user d (SignupRequest.email payload) with
    | Some _ => (Raise (HTTPException 400 "Email already registered"), online d out)
    | None =>
        let u := User.new (SignupRequest.name payload) (SignupRequest.email payload)
                   (SignupRequest.password payload) in
        (Ok {| SignupResponse.user_id := str (ObjectId (next_id d));
               SignupResponse.email := SignupRequest.email payload |},
         online (snd (insert_one u d)) out)
    end.
Proof.
  unfold signup.
  rewrite (bind_ok _ _ _ _ _ (require_db_online d out)).
  rewrite (bind_ok _ _ _ _ _ (find_by_email _ d out)).
  destruct (stored_user d _) as [u|]; reflexivity.
Qed.

(** C6. Login with the store available: when no user has the given email,
    or the user found by it stores another password, the answer is the
    same 401 "Invalid credentials" and the world is unchanged; when the
    user found stores the supplied password, login succeeds with that
    user's identifier (stringified), name and email. *)
Theorem login_credentials d out (payload : LoginRequest.t) :
  ((∀ u, u ∈ user d → User.email (fields u) ≠ LoginRequest.email payload)
   ∨ (∃ u, stored_user d (LoginRequest.email payload) = Some u
           ∧ User.hashed_password (fields u) ≠ LoginRequest.password payload)
   → login payload (online d out)
     = (Raise (HTTPException 401 "Invalid credentials"), online d out))
  ∧ (∀ u, stored_user d (LoginRequest.email payload) = Some u →
          User.hashed_password (fields u) = LoginRequest.password payload →
          login payload (online d out)
          = (Ok {| LoginResponse.user_id := str (_id u);
                   LoginResponse.name := User.name (fields u);
                   LoginResponse.email := LoginRequest.email payload |},
             online d out)).
Proof.
  split.
  - intros [Habsent|(u & Hu & Hpw)]; rewrite login_run.
    + apply stored_user_None in Habsent. by rewrite Habsent.
    + rewrite Hu. by destruct (String.eqb_spec (User.hashed_password (fields u))
                                 (LoginRequest.password payload)).
  - intros u Hu Hpw. rewrite login_run, Hu, Hpw, String.eqb_refl.
    by destruct (stored_user_email _ _ _ Hu) as [_ ->].
Qed.

Lemma login_credentials_witness :
  login (ann_login "guess") ann_signed_up
  = (Raise (HTTPException 401 "Invalid credentials"), ann_signed_up)
  ∧ login (ann_login "secret") ann_signed_up
    = (Ok {| LoginResponse.user_id := "000000000000000000000000";
             LoginResponse.name := "Ann";
             LoginResponse.email := "ann@example.com" |}, ann_signed_up).
Proof.
  pose (d := snd (insert_one (User.new "Ann" "ann@example.com" "secret") empty_store)).
  pose (u := {| _id := ObjectId 0; fields := User.new "Ann" "ann@example.com" "secret" |}).
  split.
  - apply (proj1 (login_credentials d [] (ann_login "guess"))).
    right. exists u. split; [reflexivity|discriminate].
  - apply (proj2 (login_credentials d [] (ann_login "secret")) u); reflexivity.
Defined.

(** C7. Signup with the store available and an email that an existing
    user document already has: the answer is 400 "Email already
    registered" whatever the password, and the world (the store with it)
    is unchanged. *)
Theorem signup_email_taken d out (payload : SignupRequest.t) u :
  u ∈ user d →
  User.email (fields u) = SignupRequest.email payload →
  signup payload (online d out)
  = (Raise (HTTPException 400 "Email already registered"), online d out).
Proof.
  intros Hu He. rewrite signup_run.
  destruct (stored_user d _) as [v|] eqn:Hv; [done|].
  by destruct (proj1 (stored_user_None _ _) Hv u Hu).
Qed.

Lemma signup_email_taken_witness :
  signup {| SignupRequest.name := "Eve"; SignupRequest.email := "ann@example.com";
            SignupRequest.password := "other" |} ann_signed_up
  = (Raise (HTTPException 400 "Email already registered"), ann_signed_up).
Proof.
  apply (signup_email_taken
           (snd (insert_one (User.new "Ann" "ann@example.com" "secret") empty_store)) []
           _ {| _id := ObjectId 0; fields := User.new "Ann" "ann@example.com" "secret" |}).
  - apply list_elem_of_singleton. reflexivity.
  - reflexivity.
Defined.

(** C3. Signup with the store available and an email that no user
    document has yet succeeds and returns a user_id; a login that follows
    it directly with the same email and password succeeds and returns
    that same user_id. *)
Theorem signup_then_login d out (payload : SignupRequest.t) :
  (∀ u, u ∈ user d → User.email (fields u) ≠ SignupRequest.email payload) →
  ∃ user_id w',
    signup payload (online d out)
    = (Ok {| SignupResponse.user_id := user_id;
             SignupResponse.email := SignupRequest.email payload |}, w')
    ∧ login {| LoginRequest.email := SignupRequest.email payload;
               LoginRequest.password := SignupRequest.password payload |} w'
      = (Ok {| LoginResponse.user_id := user_id;
               LoginResponse.name := SignupRequest.name payload;
               LoginResponse.email := SignupRequest.email payload |}, w').
Proof.
  intros Hfresh%stored_user_None.
  eexists _, _. split.
  - rewrite signup_run, Hfresh. reflexivity.
  - rewrite login_run. simpl LoginRequest.email.
    rewrite (stored_user_appended d _
               (User.new (SignupRequest.name payload) (SignupRequest.email payload)
                  (SignupRequest.password payload)) Hfresh eq_refl).
    cbn [fields _id User.new User.hashed_password User.name User.email].
    by rewrite String.eqb_refl.
Qed.

Lemma signup_then_login_witness :
  ∃ user_id w',
    signup ann fresh
    = (Ok {| SignupResponse.user_id := user_id;
             SignupResponse.email := "ann@example.com" |}, w')
    ∧ login (ann_login "secret") w'
      = (Ok {| LoginResponse.user_id := user_id;
               LoginResponse.name := "Ann";
               LoginResponse.email := "ann@example.com" |}, w').
Proof.
  apply (signup_then_login empty_store [] ann).
  intros u Hu. apply elem_of_nil in Hu. destruct Hu.
Defined.

(** * Categories *)

Lemma setdefault_append_lookup {A} parent (c : A) acc k :
  setdefault_append parent c acc !! k
  = if decide (parent = k) then Some (default [] (acc !! k) ++ [c]) else acc !! k.
Proof.
  unfold setdefault_append. rewrite lookup_insert.
  destruct (decide (parent = k)) as [->|]; reflexivity.
Qed.

Lemma members_cons parent c cats :
  members parent (c :: cats)
  = if decide (Category.parent_id (fields c) = parent)
    then c :: members parent cats else members parent cats.
Proof.
  unfold members. simpl.
  destruct (decide (Category.parent_id (fields c) = parent)) as [H|H].
  - by rewrite bool_decide_eq_true_2.
  - by rewrite bool_decide_eq_false_2.
Qed.

(** The loop of [list_categories], one key at a time. *)
Lemma grouping_lookup cats : ∀ acc k,
  foldl (λ by_parent c,
           let c := stringify c in
           let parent := Category.parent_id (fields c) in
           setdefault_append parent c by_parent) acc cats !! k
  = extend_group (acc !! k) (members k (stringify <$> cats)).
Proof.
  induction cats as [|c cats IH]; intros acc k; [reflexivity|].
  cbn [foldl fmap list_fmap]. rewrite IH, setdefault_append_lookup, members_cons.
  destruct (decide _) as [Hk|Hk]; [|reflexivity].
  destruct (members k (stringify <$> cats)) as [|c' g]; simpl; [reflexivity|].
  by rewrite <- app_assoc.
Qed.

Lemma members_parent parent cats c :
  c ∈ members parent cats → Category.parent_id (fields c) = parent.
Proof.
  unfold members. rewrite list_elem_of_In, filter_In, bool_decide_eq_true. tauto.
Qed.

Lemma list_categories_run w cats :
  get_documents (A := Category.t) None None w = (Ok cats, w) →
  list_categories w
  = (Ok (foldl (λ by_parent c,
                  let c := stringify c in
                  let parent := Category.parent_id (fields c) in
                  setdefault_append parent c by_parent) ∅ cats), w).
Proof.
  intros Hget. unfold list_categories.
  destruct (require_db_cases w) as [(d & Hw & Hreq)|[Hnone _]].
  - rewrite (bind_ok _ _ _ _ _ Hreq), (bind_ok _ _ _ _ _ Hget). reflexivity.
  - unfold get_documents in Hget. rewrite Hnone in Hget. discriminate.
Qed.

Lemma three_categories_retrieved :
  get_documents (A := Category.t) None None three_categories
  = (Ok [ {| _id := ObjectId 0; fields := cat "A" None |};
          {| _id := ObjectId 1; fields := cat "B" (Some id_A) |};
          {| _id := ObjectId 2; fields := cat "C" (Some id_B) |} ],
     three_categories).
Proof. vm_compute. reflexivity. Qed.

(** C2. Category listing groups the retrieved categories by their direct
    parent_id only: under every key the result holds exactly the
    retrieved categories (identifier stringified, in retrieval order)
    whose parent_id is that key, a key is present exactly when some
    category has it as parent_id, and [None] is the key of the roots.
    For A (a root), B under A and C under B: A is under [None], B alone
    under A's identifier, C under B's, and C is not under A's. *)
Theorem list_categories_groups :
  (∀ w cats,
     get_documents (A := Category.t) None None w = (Ok cats, w) →
     ∃ by_parent,
       list_categories w = (Ok by_parent, w)
       ∧ (∀ parent, by_parent !! parent = group_of parent (stringify <$> cats))
       ∧ (∀ parent g c, by_parent !! parent = Some g → c ∈ g →
                        Category.parent_id (fields c) = parent))
  ∧ (∃ by_parent,
       list_categories three_categories = (Ok by_parent, three_categories)
       ∧ by_parent !! None = Some [doc_A]
       ∧ by_parent !! Some id_A = Some [doc_B]
       ∧ by_parent !! Some id_B = Some [doc_C]
       ∧ doc_C ∉ default [] (by_parent !! Some id_A)).
Proof.
  assert (∀ w cats,
     get_documents (A := Category.t) None None w = (Ok cats, w) →
     ∃ by_parent,
       list_categories w = (Ok by_parent, w)
       ∧ (∀ parent, by_parent !! parent = group_of parent (stringify <$> cats))
       ∧ (∀ parent g c, by_parent !! parent = Some g → c ∈ g →
                        Category.parent_id (fields c) = parent)) as General.
  { intros w cats Hget. eexists. split; [by apply list_categories_run|].
    assert (∀ parent,
      foldl (λ by_parent c,
               let c := stringify c in
               let parent := Category.parent_id (fields c) in
               setdefault_append parent c by_parent) ∅ cats !! parent
      = group_of parent (stringify <$> cats)) as Hgroup.
    { intros parent. rewrite grouping_lookup, lookup_empty.
      unfold group_of, extend_group.
      by destruct (members parent (stringify <$> cats)). }
    split; [exact Hgroup|].
    intros parent g c Hg Hc. rewrite Hgroup in Hg. unfold group_of in Hg.
    apply (members_parent parent (stringify <$> cats)).
    destruct (members parent (stringify <$> cats)); [discriminate|].
    by injection Hg as <-. }
  split; [exact General|].
  destruct (General _ _ three_categories_retrieved) as (m & Hrun & Hgroup & _).
  exists m. split; [exact Hrun|].
  rewrite !Hgroup. repeat split; try (vm_compute; reflexivity).
  change (doc_C ∉ [doc_B]). intros Hin%list_elem_of_singleton. discriminate.
Qed.

Lemma list_categories_groups_witness :
  ∃ by_parent,
    list_categories three_categories = (Ok by_parent, three_categories)
    ∧ (∀ parent,
         by_parent !! parent
         = group_of parent
             (stringify <$>
                [ {| _id := ObjectId 0; fields := cat "A" None |};
                  {| _id := ObjectId 1; fields := cat "B" (Some id_A) |};
                  {| _id := ObjectId 2; fields := cat "C" (Some id_B) |} ]))
    ∧ (∀ parent g c, by_parent !! parent = Some g → c ∈ g →
                     Category.parent_id (fields c) = parent).
Proof.
  apply (proj1 list_categories_groups three_categories).
  vm_compute. reflexivity.
Defined.

(** * Reads *)

Lemma read_only_bind {A B} (m : App A) (k : A → App B) :
  read_only m → (∀ a, read_only (k a)) → read_only (bind m k).
Proof.
  intros Hm Hk w. unfold bind. specialize (Hm w).
  destruct (m w) as [[a|e] w']; simpl in *; subst; [apply Hk|done].
Qed.

Lemma read_only_ret {A} (a : A) : read_only (ret a).
Proof. by intros w. Qed.


Lemma read_only_require_db : read_only require_db.
Proof. intros w. by destruct (require_db_cases w) as [(d & _ & ->)|[_ ->]]. Qed.

Lemma read_only_get_documents {A} `{Schema A} f limit :
  read_only (get_documents (A := A) f limit).
Proof. intros w. apply get_documents_world. Qed.

Lemma read_only_list_categories : read_only list_categories.
Proof.
  apply read_only_bind; [apply read_only_require_db|intros _].
  apply read_only_bind; [apply read_only_get_documents|intros cats].
  apply read_only_ret.
Qed.

Lemma read_only_list_products cid sid q limit :
  read_only (list_products cid sid q limit).
Proof.
  apply read_only_bind; [apply read_only_require_db|intros _].
  apply read_only_bind; [apply read_only_get_documents|intros prods].
  apply read_only_ret.
Qed.

(** C9. GET /categories and GET /products leave the world, and the store
    in it, as they found it, whether they answer or raise; so a second
    call with the same inputs, made right after the first, returns what
    the first returned. *)
Theorem reads_are_idempotent w cid sid q limit :
  snd (list_categories w) = w
  ∧ snd (list_products cid sid q limit w) = w
  ∧ fst (list_categories (snd (list_categories w))) = fst (list_categories w)
  ∧ fst (list_products cid sid q limit (snd (list_products cid sid q limit w)))
    = fst (list_products cid sid q limit w).
Proof.
  pose proof (read_only_list_categories w) as Hc.
  pose proof (read_only_list_products cid sid q limit w) as Hp.
  by rewrite Hc, Hp.
Qed.

(** * Products *)

Lemma dump_name (p : Product.t) :
  model_dump p !! "name" = Some (VStr (Product.name p)).
Proof. reflexivity. Qed.

Lemma dump_category_id (p : Product.t) :
  model_dump p !! "category_id" = Some (VStr (Product.category_id p)).
Proof. reflexivity. Qed.

Lemma dump_subcategory_id (p : Product.t) :
  model_dump p !! "subcategory_id" = Some (VOpt (Product.subcategory_id p)).
Proof. reflexivity. Qed.

(** The filter that [list_products] builds selects by [selects]. *)
Lemma products_filter_matches re cid sid q (p : Document Product.t) :
  doc_matches re (products_filter cid sid q) p = selects re cid sid q (fields p).
Proof.
  unfold doc_matches, selects.
  pose proof (dump_name (fields p)) as Hn.
  pose proof (dump_category_id (fields p)) as Hc.
  pose proof (dump_subcategory_id (fields p)) as Hs.
  revert Hn Hc Hs. generalize (model_dump (fields p)). intros dump Hn Hc Hs.
  unfold products_filter, set_if.
  destruct cid as [c|], sid as [s|], q as [pat|]; simpl; split_given;
    rewrite ?dict_matches_insert, ?dict_matches_empty by done;
    rewrite ?Hn, ?Hc, ?Hs; simpl; rewrite ?andb_true_r; try reflexivity;
    destruct (Product.subcategory_id (fields p)); simpl;
    rewrite ?andb_true_r, ?andb_false_r; try reflexivity;
    repeat match goal with |- context [String.eqb ?x ?y] =>
      destruct (String.eqb x y) end;
    repeat match goal with |- context [from_option ?f ?d ?o] =>
      destruct (from_option f d o) end; reflexivity.
Qed.

Lemma products_filter_supported re cid sid q :
  filter_supported re (products_filter cid sid q) = takes re q.
Proof.
  unfold products_filter, set_if, takes.
  destruct cid as [c|], sid as [s|], q as [pat|]; simpl; split_given;
    rewrite ?filter_supported_insert, ?filter_supported_empty by done;
    simpl; rewrite ?andb_true_r; reflexivity.
Qed.

Lemma list_products_run d out cid sid q limit :
  list_products cid sid q limit (online d out)
  = if takes (pcre d) q
    then (Ok (stringify <$>
                take (Z.to_nat limit)
                  (List.filter (λ p, selects (pcre d) cid sid q (fields p))
                     (product d))),
          online d out)
    else (Raise regex_refused, online d out).
Proof.
  unfold list_products.
  rewrite (bind_ok _ _ _ _ _ (require_db_online d out)).
  destruct (takes (pcre d) q) eqn:Ht.
  - rewrite <- (products_filter_supported _ cid sid) in Ht.
    rewrite (bind_ok _ _ _ _ _
               (get_documents_online (Some (products_filter cid sid q))
                  (Some limit) d out Ht)).
    unfold ret. cbn [default].
    rewrite (List.filter_ext _ _ (products_filter_matches (pcre d) cid sid q)).
    reflexivity.
  - rewrite <- (products_filter_supported _ cid sid) in Ht.
    unfold bind, get_documents. cbn [db online default from_option].
    unfold id. by rewrite Ht.
Qed.

(** ** Patterns of the fragment *)

Lemma searcher_fragment re pat :
  is_Some (compile pat "i") →
  searcher re pat "i" = Some (regex_search_i pat).
Proof.
  intros [r Hr]. unfold searcher, regex_search_i. rewrite Hr. reflexivity.
Qed.

Lemma takes_fragment re q :
  (Py.truthy q = true → is_Some (compile (default "" q) "i")) →
  takes re q = true.
Proof.
  intros Hq. unfold takes. destruct (Py.truthy q); [|done].
  rewrite searcher_fragment by auto. by apply bool_decide_eq_true_2.
Qed.

Lemma selects_fragment re cid sid q p :
  (Py.truthy q = true → is_Some (compile (default "" q) "i")) →
  selects re cid sid q p = selected cid sid q p.
Proof.
  intros Hq. unfold selects, selected. destruct (Py.truthy q); [|done].
  by rewrite searcher_fragment by auto.
Qed.

Lemma list_products_fragment d out cid sid q limit :
  (Py.truthy q = true → is_Some (compile (default "" q) "i")) →
  list_products cid sid q limit (online d out)
  = (Ok (stringify <$>
           take (Z.to_nat limit)
             (List.filter (λ p, selected cid sid q (fields p)) (product d))),
     online d out).
Proof.
  intros Hq. rewrite list_products_run, (takes_fragment _ _ Hq).
  do 4 f_equal. apply List.filter_ext. intros p. by apply selects_fragment.
Qed.

(** ** Patterns of plain characters *)

Lemma parse_literal pat : literal pat = true → parse pat = Some (literals pat).
Proof.
  induction pat as [|c r IH]; cbn [literal parse literals]; [done|].
  rewrite andb_true_iff. intros [Hc Hr].
  destruct (Ascii.eqb_spec c ".") as [->|_]; [by vm_compute in Hc|].
  by rewrite Hc, IH.
Qed.

Lemma match_here_literals pat : ∀ s,
  match_here true (literals pat) s = true ↔
  ∃ mid post, s = mid +:+ post ∧ casefold mid = casefold pat.
Proof.
  induction pat as [|c r IH]; intros s; simpl.
  - split; [intros _; by exists "", s|done].
  - destruct s as [|a s']; simpl.
    + split; [done|]. intros (mid & post & Hs & Hm).
      destruct mid; simpl in *; discriminate.
    + rewrite andb_true_iff, IH. split.
      * intros [Ha (mid & post & -> & Hm)].
        exists (String a mid), post. simpl. split; [done|].
        apply Ascii.eqb_eq in Ha. by rewrite Ha, Hm.
      * intros (mid & post & Hs & Hm).
        destruct mid as [|a' mid']; simpl in *; [discriminate|].
        injection Hs as -> ->. injection Hm as Ha Hm.
        split; [by apply Ascii.eqb_eq|by exists mid', post].
Qed.

Lemma search_literals pat : ∀ s,
  search_from true (literals pat) s = true ↔ contains_ci pat s.
Proof.
  unfold contains_ci.
  induction s as [|a s' IH]; simpl; rewrite orb_true_iff, match_here_literals.
  - split.
    + intros [(mid & post & Hs & Hm)|]; [|done]. by exists "", mid, post.
    + intros (pre & mid & post & Hs & Hm). left.
      destruct pre; simpl in *; [|discriminate]. by exists mid, post.
  - rewrite IH. split.
    + intros [(mid & post & Hs & Hm)|(pre & mid & post & -> & Hm)].
      * by exists "", mid, post.
      * by exists (String a pre), mid, post.
    + intros (pre & mid & post & Hs & Hm).
      destruct pre as [|a' pre']; simpl in *.
      * left. by exists mid, post.
      * injection Hs as -> ->. right. by exists pre', mid, post.
Qed.

(** For a pattern of plain characters the search is containment in some
    letter-case. *)
Lemma regex_search_i_literal pat s :
  literal pat = true → regex_search_i pat s = true ↔ contains_ci pat s.
Proof.
  intros Hl. unfold regex_search_i, compile.
  rewrite (parse_literal _ Hl). simpl. apply search_literals.
Qed.

Lemma literal_compiles pat : literal pat = true → is_Some (compile pat "i").
Proof.
  intros Hl. unfold compile. rewrite (parse_literal _ Hl). by eexists.
Qed.

Lemma truthy_Some s : s ≠ "" → Py.truthy (Some s) = true.
Proof.
  intros Hs. simpl. by destruct (String.eqb_spec s "").
Qed.

Lemma selected_category_id cid sid q p c :
  selected cid sid q p = true → cid = Some c → c ≠ "" → Product.category_id p = c.
Proof.
  unfold selected. intros H -> Hc. rewrite (truthy_Some _ Hc) in H.
  apply andb_true_iff in H as [[H _]%andb_true_iff _].
  by apply String.eqb_eq in H.
Qed.

Lemma selected_subcategory_id cid sid q p s :
  selected cid sid q p = true → sid = Some s → s ≠ "" →
  Product.subcategory_id p = Some s.
Proof.
  unfold selected. intros H -> Hs. rewrite (truthy_Some _ Hs) in H.
  apply andb_true_iff in H as [[_ H]%andb_true_iff _].
  destruct (Product.subcategory_id p) as [s'|]; simpl in H; [|done].
  by apply String.eqb_eq in H as ->.
Qed.

Lemma selected_name cid sid q p pat :
  selected cid sid q p = true → q = Some pat → pat ≠ "" →
  regex_search_i pat (Product.name p) = true.
Proof.
  unfold selected. intros H -> Hp. rewrite (truthy_Some _ Hp) in H.
  by apply andb_true_iff in H as [_ H].
Qed.

(** What [selects] says of a product does not depend on [q] as far as
    the two identifiers go. *)
Lemma selects_identifiers re cid sid q p :
  selects re cid sid q p = true → selected cid sid None p = true.
Proof.
  unfold selects, selected. cbn [Py.truthy].
  rewrite andb_true_r. by intros [H _]%andb_true_iff.
Qed.

Lemma selects_name re cid sid q p pat :
  selects re cid sid q p = true → q = Some pat → pat ≠ "" →
  ∃ m, searcher re pat "i" = Some m ∧ m (Product.name p) = true.
Proof.
  unfold selects. intros H -> Hp. rewrite (truthy_Some _ Hp) in H.
  apply andb_true_iff in H as [_ H]. cbn [default from_option] in H.
  unfold id in H. destruct (searcher re pat "i") as [m|]; [|done].
  by exists m.
Qed.

(** The clauses of the filter: one for each parameter that is given,
    and no other. *)
Lemma products_filter_clauses cid sid q :
  products_filter cid sid q !! "category_id"
  = (if Py.truthy cid then Some (Equals (default "" cid)) else None)
  ∧ products_filter cid sid q !! "subcategory_id"
    = (if Py.truthy sid then Some (Equals (default "" sid)) else None)
  ∧ products_filter cid sid q !! "name"
    = (if Py.truthy q then Some (Regex (default "" q) "i") else None)
  ∧ (∀ k, k ≠ "category_id" → k ≠ "subcategory_id" → k ≠ "name" →
          products_filter cid sid q !! k = None).
Proof.
  unfold products_filter, set_if.
  destruct cid as [c|], sid as [s|], q as [pat|]; cbn [Py.truthy default from_option];
    unfold id; split_given;
    (split; [by simplify_map_eq|]); (split; [by simplify_map_eq|]);
    (split; [by simplify_map_eq|]); intros k H1 H2 H3; by simplify_map_eq.
Qed.

(** C8, as the code has it. Product listing with the store available.
    The filter holds one clause for each parameter that is given (not
    absent, not empty) and no other: an exact match for category_id and
    for subcategory_id, and for [q] a regular expression on the name
    with the option [i]. When the store takes the pattern, the answer is
    the products that match every clause, identifiers stringified, in
    retrieval order and cut at [limit]: every returned product has the
    given category_id and subcategory_id exactly and a name in which
    the store's engine finds the pattern. A pattern of plain characters
    and [.] is always taken and searched as the fragment says, so that
    for a pattern of plain characters only (such as "cable") the name
    contains it in some letter-case. When the store refuses the
    pattern the request fails with the store's error. With no parameter
    given nothing is filtered out, and the limit defaults to 100. *)
Theorem list_products_selects d out cid sid q limit :
  products_filter cid sid q !! "category_id"
  = (if Py.truthy cid then Some (Equals (default "" cid)) else None)
  ∧ products_filter cid sid q !! "subcategory_id"
    = (if Py.truthy sid then Some (Equals (default "" sid)) else None)
  ∧ products_filter cid sid q !! "name"
    = (if Py.truthy q then Some (Regex (default "" q) "i") else None)
  ∧ (∀ k, k ≠ "category_id" → k ≠ "subcategory_id" → k ≠ "name" →
          products_filter cid sid q !! k = None)
  ∧ (takes (pcre d) q = true →
     ∃ returned,
       list_products cid sid q limit (online d out) = (Ok returned, online d out)
       ∧ returned
         = stringify <$>
             take (Z.to_nat limit)
               (List.filter (λ p, selects (pcre d) cid sid q (fields p)) (product d))
       ∧ (length returned ≤ Z.to_nat limit)%nat
       ∧ (∀ p, p ∈ returned →
            (∀ c, cid = Some c → c ≠ "" → Product.category_id (fields p) = c)
            ∧ (∀ s, sid = Some s → s ≠ "" →
                    Product.subcategory_id (fields p) = Some s)
            ∧ (∀ pat, q = Some pat → pat ≠ "" →
                      (∃ m, searcher (pcre d) pat "i" = Some m
                            ∧ m (Product.name (fields p)) = true)
                      ∧ (is_Some (compile pat "i") →
                         regex_search_i pat (Product.name (fields p)) = true)
                      ∧ (literal pat = true →
                         contains_ci pat (Product.name (fields p))))))
  ∧ (takes (pcre d) q = false →
     list_products cid sid q limit (online d out)
     = (Raise regex_refused, online d out))
  ∧ ((Py.truthy q = true → is_Some (compile (default "" q) "i")) →
     takes (pcre d) q = true)
  ∧ (∀ p, selects (pcre d) None None None p = true)
  ∧ get_products cid sid q None = list_products cid sid q 100.
Proof.
  destruct (products_filter_clauses cid sid q) as (Hc & Hs & Hn & Hk).
  do 4 (split; [assumption|]).
  split; [|split; [|split; [|by split]]].
  - intros Ht. eexists. split; [by rewrite list_products_run, Ht|].
    split; [reflexivity|]. split.
    { rewrite length_fmap, length_take. lia. }
    intros p (p0 & -> & Hp0)%list_elem_of_fmap.
    apply elem_of_take in Hp0 as (i & Hp0 & _).
    apply list_elem_of_lookup_2, list_elem_of_In, filter_In in Hp0 as [_ Hsel].
    cbn [fields stringify].
    pose proof (selects_identifiers _ _ _ _ _ Hsel) as Hid.
    split; [|split].
    + intros c. by apply (selected_category_id cid sid None).
    + intros s. by apply (selected_subcategory_id cid sid None).
    + intros pat Hpat Hne.
      destruct (selects_name _ _ _ _ _ _ Hsel Hpat Hne) as (m & Hm & Hfound).
      split; [by exists m|].
      assert (is_Some (compile pat "i") →
              regex_search_i pat (Product.name (fields p0)) = true) as Hfrag.
      { intros Hfr. rewrite (searcher_fragment _ _ Hfr) in Hm.
        by injection Hm as <-. }
      split; [exact Hfrag|]. intros Hl.
      apply regex_search_i_literal; [done|]. by apply Hfrag, literal_compiles.
  - intros Ht. by rewrite list_products_run, Ht.
  - apply takes_fragment.
Qed.

Lemma list_products_selects_witness :
  ∃ returned,
    list_products None None (Some "cable") 100 cable_and_hub
    = (Ok returned, cable_and_hub)
    ∧ returned = [cable_doc]
    ∧ (∀ p, p ∈ returned → contains_ci "cable" (Product.name (fields p))).
Proof.
  destruct (list_products_selects
              (snd (insert_one (gadget "USB Cable" "")
                      (snd (insert_one (gadget "hub" "") empty_store))))
              [] None None (Some "cable") 100)
    as (_ & _ & _ & _ & Htaken & _).
  destruct Htaken as (returned & Hrun & Hret & _ & Hall); [by vm_compute|].
  exists returned. split; [exact Hrun|]. split.
  - rewrite Hret. vm_compute. reflexivity.
  - intros p Hp. destruct (Hall p Hp) as (_ & _ & Hname).
    destruct (Hname "cable" eq_refl) as (_ & _ & Hc); [discriminate|].
    apply Hc. reflexivity.
Defined.

(** C8 as stated fails: [q] is a regular expression, not a substring. The
    pattern "." selects the product named "hub", whose name contains no
    "." in any letter-case. *)
Lemma list_products_regex_not_substring :
  list_products None None (Some ".") 100 hub_only = (Ok [hub_doc], hub_only)
  ∧ ¬ contains_ci "." (Product.name (fields hub_doc)).
Proof.
  split; [vm_compute; reflexivity|].
  rewrite <- search_literals. vm_compute. discriminate.
Qed.

(** C10. A query parameter given as the empty string is treated as an
    absent one: the filter built is the same, it holds no clause under
    that parameter's key, and the listing is the same. *)
Theorem empty_parameter_is_absent cid sid q limit w :
  products_filter (Some "") sid q = products_filter None sid q
  ∧ products_filter cid (Some "") q = products_filter cid None q
  ∧ products_filter cid sid (Some "") = products_filter cid sid None
  ∧ products_filter (Some "") sid q !! "category_id" = None
  ∧ products_filter cid (Some "") q !! "subcategory_id" = None
  ∧ products_filter cid sid (Some "") !! "name" = None
  ∧ list_products (Some "") sid q limit w = list_products None sid q limit w
  ∧ list_products cid (Some "") q limit w = list_products cid None q limit w
  ∧ list_products cid sid (Some "") limit w = list_products cid sid None limit w.
Proof.
  repeat split; try reflexivity; unfold products_filter, set_if.
  - destruct sid as [s|], q as [pat|]; simpl; split_given; reflexivity.
  - destruct cid as [c|], q as [pat|]; simpl; split_given; reflexivity.
  - destruct cid as [c|], sid as [s|]; simpl; split_given; reflexivity.
Qed.

Lemma create_product_run d out prod :
  create_product prod (online d out)
  = if negb (String.eqb (Product.category_id prod) "")
       && negb (ObjectId_valid (Product.category_id prod))
    then (Raise (HTTPException 400 "Invalid category_id"), online d out)
    else (Ok {| Created.id := str (ObjectId (next_id d)) |},
          online (snd (insert_one prod d)) out).
Proof.
  unfold create_product.
  rewrite (bind_ok _ _ _ _ _ (require_db_online d out)).
  unfold bind, raise_if, raise, ret.
  destruct (negb (String.eqb _ "")); simpl; [|reflexivity].
  destruct (ObjectId_valid _); reflexivity.
Qed.

(** C5, as the code has it. Product creation with the store available:
    a category_id that is not empty and is not a well-formed store
    identifier (such as "not-a-valid-id") is answered with 400 "Invalid
    category_id" and nothing is inserted; an empty category_id is not
    checked, and the product is inserted as one with a well-formed
    identifier is. *)
Theorem create_product_checks_category d out prod :
  (Product.category_id prod ≠ "" →
   ObjectId_valid (Product.category_id prod) = false →
   create_product prod (online d out)
   = (Raise (HTTPException 400 "Invalid category_id"), online d out))
  ∧ (Product.category_id prod = ""
     ∨ ObjectId_valid (Product.category_id prod) = true →
     create_product prod (online d out)
     = (Ok {| Created.id := str (ObjectId (next_id d)) |},
        online (snd (insert_one prod d)) out))
  ∧ ObjectId_valid "not-a-valid-id" = false.
Proof.
  rewrite create_product_run. repeat split.
  - intros Hne Hbad. rewrite Hbad.
    by destruct (String.eqb_spec (Product.category_id prod) "").
  - intros [-> | ->]; [reflexivity|]. by rewrite andb_false_r.
Qed.

Lemma create_product_checks_category_witness :
  create_product (gadget "hub" "not-a-valid-id") fresh
  = (Raise (HTTPException 400 "Invalid category_id"), fresh).
Proof.
  apply (proj1 (create_product_checks_category
                  empty_store [] (gadget "hub" "not-a-valid-id"))).
  - discriminate.
  - reflexivity.
Defined.

(** C5 as stated fails for the empty string: it is no well-formed
    identifier, and yet the product is inserted. *)
Lemma create_product_empty_category_inserted :
  ObjectId_valid "" = false
  ∧ create_product (gadget "hub" "") fresh
    = (Ok {| Created.id := "000000000000000000000000" |}, hub_only)
  ∧ product <$> db hub_only
    = Some [ {| _id := ObjectId 0; fields := gadget "hub" "" |} ].
Proof. repeat split; vm_compute; reflexivity. Qed.

(** * Floats: signs through rounding *)

Lemma ge0_nonneg x : ge0 x = nonneg x.
Proof. by destruct x as [[]|[]| |[] m e]. Qed.

Lemma signed_nonneg x : signed false x → nonneg x = true.
Proof. destruct x as [[]|[]| |[] m e]; simpl; done. Qed.

Lemma iter_pos_inv {A} (P : A → Prop) (f : A → A) :
  (∀ x, P x → P (f x)) → ∀ p x, P x → P (SpecFloat.iter_pos f p x).
Proof. intros Hf; induction p; simpl; auto. Qed.

Lemma shr_1_nonneg mrs : 0 ≤ shr_m mrs → 0 ≤ shr_m (shr_1 mrs).
Proof.
  destruct mrs as [m r s]; destruct m as [|p|p]; simpl; try lia;
    destruct p; simpl; lia.
Qed.

Lemma shr_nonneg mrs e n : 0 ≤ shr_m mrs → 0 ≤ shr_m (fst (shr mrs e n)).
Proof.
  intros H; destruct n; simpl; auto.
  apply (iter_pos_inv (λ x, 0 ≤ shr_m x)); auto using shr_1_nonneg.
Qed.

Lemma shr_record_of_loc_m m l : shr_m (shr_record_of_loc m l) = m.
Proof. destruct l as [|[]]; reflexivity. Qed.

Lemma shr_fexp_nonneg p e m ex l :
  0 ≤ m → 0 ≤ shr_m (fst (shr_fexp p e m ex l)).
Proof.
  intros H; unfold shr_fexp; apply shr_nonneg.
  by rewrite shr_record_of_loc_m.
Qed.

Lemma round_nearest_even_nonneg m l : 0 ≤ m → 0 ≤ round_nearest_even m l.
Proof.
  intros H; destruct l as [|[]]; simpl; try lia.
  destruct (Z.even m); lia.
Qed.

(** Rounding a non-negative mantissa keeps the sign it is given. *)
Lemma binary_round_aux_signed p e sx mx ex lx :
  0 ≤ mx → signed sx (binary_round_aux p e sx mx ex lx).
Proof.
  intros H; unfold binary_round_aux.
  pose proof (shr_fexp_nonneg p e mx ex lx H) as H1.
  destruct (shr_fexp p e mx ex lx) as [mrs' e'] eqn:E1; simpl in H1.
  pose proof (shr_fexp_nonneg p e _ e' loc_Exact
                (round_nearest_even_nonneg _ (loc_of_shr_record mrs') H1)) as H2.
  destruct (shr_fexp p e (round_nearest_even _ _) e' loc_Exact) as [mrs'' e''] eqn:E2.
  simpl in H2.
  destruct (shr_m mrs'') as [|m|m]; simpl; try done; try lia.
  by destruct (e'' <=? e - p).
Qed.

Lemma binary_round_signed p e sx mx ex : signed sx (binary_round p e sx mx ex).
Proof.
  unfold binary_round.
  destruct (shl_align _ _ _) as [mz ez].
  by apply binary_round_aux_signed.
Qed.

Lemma fadd_ge0 x y : ge0 x = true → ge0 y = true → ge0 (Py.fadd x y) = true.
Proof.
  rewrite !ge0_nonneg.
  destruct x as [[]|[]| |[] mx ex], y as [[]|[]| |[] my ey]; simpl; try done.
  intros _ _. apply signed_nonneg.
  unfold SFadd. apply binary_round_signed.
Qed.

Lemma fmul_ge0 x y : positive_finite x → ge0 y = true → ge0 (Py.fmul x y) = true.
Proof.
  rewrite !ge0_nonneg.
  destruct x as [[]|[]| |[] mx ex], y as [[]|[]| |[] my ey]; simpl; try done.
  intros _ _. apply signed_nonneg.
  by apply binary_round_aux_signed.
Qed.

(** ** A positive integer does not round to zero *)

Lemma shr_1_digits mrs d :
  has_digits mrs d → 1 < d → has_digits (shr_1 mrs) (d - 1).
Proof.
  intros (m & Hm & Hd) H1. destruct mrs as [m0 r s]; simpl in Hm; subst m0.
  destruct m as [p|p|]; simpl in *.
  - exists p; split; [done|lia].
  - exists p; split; [done|lia].
  - lia.
Qed.

Lemma iter_shr_1_digits p : ∀ mrs d,
  has_digits mrs d → Z.pos p < d →
  has_digits (SpecFloat.iter_pos shr_1 p mrs) (d - Z.pos p).
Proof.
  induction p as [p IH|p IH|]; intros mrs d Hd Hp; simpl.
  - replace (d - Z.pos p~1) with (d - 1 - Z.pos p - Z.pos p) by lia.
    apply IH; [apply IH; [apply shr_1_digits|]|]; [done|lia..].
  - replace (d - Z.pos p~0) with (d - Z.pos p - Z.pos p) by lia.
    apply IH; [apply IH|]; [done|lia..].
  - apply shr_1_digits; [done|lia].
Qed.

Lemma shr_fexp_positive m e l :
  -1074 ≤ e →
  ∃ m', shr_m (fst (shr_fexp Py.prec Py.emax (Z.pos m) e l)) = Z.pos m'
        ∧ -1074 ≤ snd (shr_fexp Py.prec Py.emax (Z.pos m) e l).
Proof.
  intros He. unfold shr_fexp, shr, fexp, emin, Py.prec, Py.emax. simpl Zdigits2.
  pose proof (Pos2Z.is_pos (digits2_pos m)) as Hd.
  destruct (Z.max _ _ - e) as [|p|p] eqn:En; simpl.
  - rewrite shr_record_of_loc_m. eauto.
  - destruct (iter_shr_1_digits p (shr_record_of_loc (Z.pos m) l) (Z.pos (digits2_pos m)))
      as (m' & Hm' & _).
    + exists m. by rewrite shr_record_of_loc_m.
    + lia.
    + exists m'. split; [done|lia].
  - rewrite shr_record_of_loc_m. eauto.
Qed.

Lemma round_nearest_even_positive m l :
  ∃ m', round_nearest_even (Z.pos m) l = Z.pos m'.
Proof.
  unfold round_nearest_even.
  destruct l as [|[]]; eauto; try destruct (Z.even _); eauto;
    by exists (m + 1)%positive.
Qed.

Lemma binary_round_aux_nonzero sx m e l :
  -1074 ≤ e → nonzero (binary_round_aux Py.prec Py.emax sx (Z.pos m) e l).
Proof.
  intros He. unfold binary_round_aux.
  destruct (shr_fexp_positive m e l He) as (m1 & H1 & He1).
  destruct (shr_fexp Py.prec Py.emax (Z.pos m) e l) as [mrs' e']; simpl in *.
  rewrite H1.
  destruct (round_nearest_even_positive m1 (loc_of_shr_record mrs')) as [m2 ->].
  destruct (shr_fexp_positive m2 e' loc_Exact He1) as (m3 & H3 & _).
  destruct (shr_fexp Py.prec Py.emax (Z.pos m2) e' loc_Exact) as [mrs'' e'']; simpl in *.
  rewrite H3. by destruct (e'' <=? _).
Qed.

(** [float(q)] for [q >= 1], when it does not overflow, is positive and
    finite. *)
Lemma float_of_int_positive q f :
  1 ≤ q → Py.float_of_int q = Ok f → positive_finite f.
Proof.
  intros Hq. unfold Py.float_of_int.
  destruct q as [|m|m]; try lia. simpl binary_normalize.
  pose proof (binary_round_signed Py.prec Py.emax false m 0) as Hs.
  assert (nonzero (binary_round Py.prec Py.emax false m 0)) as Hn.
  { unfold binary_round.
    destruct (shl_align m 0 _) as [mz ez] eqn:Ea.
    apply binary_round_aux_nonzero.
    unfold shl_align, fexp, emin, Py.prec, Py.emax in Ea.
    destruct (Z.max _ _ - 0) eqn:Em; inversion Ea; subst; lia. }
  destruct (binary_round Py.prec Py.emax false m 0) as [s|s| |s m' e'];
    simpl in *; try done.
  intros [= <-]. by subst.
Qed.

(** * Orders *)

Lemma converts_ok q :
  converts q = true → Py.float_of_int q = Ok (Py.float_lit q 0).
Proof.
  unfold converts, Py.float_of_int, Py.float_lit.
  by destruct (binary_normalize Py.prec Py.emax q 0 false).
Qed.

Lemma line_total_converts i :
  converts (OrderItem.quantity i) = true →
  line_total i = Ok (Py.PyFloat (line i)).
Proof.
  intros Hc. unfold line_total, line, Py.mul, Py.to_float.
  by rewrite (converts_ok _ Hc).
Qed.

Lemma line_ge0 i :
  OrderItem.valid i = true → converts (OrderItem.quantity i) = true →
  ge0 (line i) = true.
Proof.
  unfold OrderItem.valid. intros [Hq Hp]%andb_true_iff Hc.
  apply fmul_ge0; [|done].
  apply (float_of_int_positive (OrderItem.quantity i)); [lia|].
  by apply converts_ok.
Qed.

Lemma sum_from_float items : ∀ acc,
  forallb (λ i, converts (OrderItem.quantity i)) items = true →
  Py.sum_from (Py.PyFloat acc) line_total items
  = Ok (Py.PyFloat (foldl Py.fadd acc (line <$> items))).
Proof.
  induction items as [|i items IH]; intros acc Hc; [reflexivity|].
  simpl in Hc. apply andb_true_iff in Hc as [Hi Hrest].
  cbn [Py.sum_from]. rewrite (line_total_converts _ Hi).
  cbn [rbind Py.add Py.to_float]. by rewrite IH.
Qed.

(** The subtotal that [place_order] computes: the integer [0] for no
    items, and otherwise the float sum of the lines. *)
Lemma sum_items items :
  forallb (λ i, converts (OrderItem.quantity i)) items = true →
  Py.sum line_total items
  = Ok (match items with
        | [] => Py.PyInt 0
        | _ => Py.PyFloat (subtotal_of items)
        end).
Proof.
  destruct items as [|i items]; intros Hc; [reflexivity|].
  simpl in Hc. apply andb_true_iff in Hc as [Hi Hrest].
  unfold Py.sum. cbn [Py.sum_from]. rewrite (line_total_converts _ Hi).
  cbn [rbind]. change (Py.add (Py.PyInt 0) (Py.PyFloat (line i)))
    with (Ok (Py.PyFloat (Py.fadd Py.fzero (line i)))).
  cbn [rbind]. by rewrite sum_from_float.
Qed.

Lemma foldl_ge0 lines : ∀ acc,
  ge0 acc = true → Forall (λ x, ge0 x = true) lines →
  ge0 (foldl Py.fadd acc lines) = true.
Proof.
  induction lines as [|x lines IH]; intros acc Hacc Hall; [done|].
  inversion Hall; subst. simpl. apply IH; [by apply fadd_ge0|done].
Qed.

Lemma subtotal_ge0 items :
  forallb OrderItem.valid items = true →
  forallb (λ i, converts (OrderItem.quantity i)) items = true →
  ge0 (subtotal_of items) = true.
Proof.
  intros Hv Hc. apply foldl_ge0; [done|].
  apply Forall_fmap, Forall_forall. intros i Hi.
  rewrite forallb_forall in Hv, Hc. apply list_elem_of_In in Hi.
  apply line_ge0; auto.
Qed.

(** [place_order] once its three computations have succeeded. *)
Lemma place_order_stores d out payload subtotal total o :
  Py.sum line_total (PlaceOrderRequest.items payload) = Ok subtotal →
  Py.add subtotal (Py.PyInt 0) = Ok total →
  Order.new (PlaceOrderRequest.user_id payload) (PlaceOrderRequest.email payload)
    (PlaceOrderRequest.items payload) subtotal (Py.PyInt 0) total
    (PlaceOrderRequest.notes payload) (PlaceOrderRequest.shipping_name payload)
    (PlaceOrderRequest.shipping_address payload)
    (PlaceOrderRequest.shipping_phone payload) = Ok o →
  place_order payload (online d out)
  = (Ok {| OrderPlaced.order_id := str (ObjectId (next_id d));
           OrderPlaced.total := total |}, placed d out o total).
Proof.
  intros Hsum Hadd Hnew. unfold place_order.
  rewrite (bind_ok _ _ _ _ _ (require_db_online d out)).
  unfold lift at 1. unfold bind at 1. rewrite Hsum.
  unfold lift at 1. unfold bind at 1. rewrite Hadd.
  unfold lift at 1. unfold bind at 1. rewrite Hnew.
  rewrite (bind_ok _ _ _ _ _ (create_document_online o d out)).
  assert (Order.email o = PlaceOrderRequest.email payload) as He.
  { unfold Order.new in Hnew.
    destruct (Py.to_float subtotal); [|done]. destruct (Py.to_float (Py.PyInt 0)); [|done].
    destruct (Py.to_float total); [|done]. cbn [rbind] in Hnew.
    destruct (_ && _); [|done]. by injection Hnew as <-. }
  unfold placed. rewrite He. reflexivity.
Qed.

(** C1, as the code has it. Order placement with the store available,
    for a request that fits its model and whose quantities each have a
    [float] (a quantity of 2^1024 has none): one order is stored and
    answered; its subtotal is the sum over its items of quantity times
    unit_price, accumulated in binary64 from zero in the order of the
    items; its tax is 0; its total is subtotal + tax; and the total of
    the response is that total. For the items [(2, 10.0); (1, 5.5)] the
    subtotal is 25.5, the tax 0 and the total 25.5, and the response
    holds 25.5. *)
Theorem place_order_totals d out payload :
  PlaceOrderRequest.valid payload = true →
  forallb (λ i, converts (OrderItem.quantity i)) (PlaceOrderRequest.items payload)
  = true →
  ∃ o total,
    place_order payload (online d out)
    = (Ok {| OrderPlaced.order_id := str (ObjectId (next_id d));
             OrderPlaced.total := total |}, placed d out o total)
    ∧ Order.items o = PlaceOrderRequest.items payload
    ∧ Order.subtotal o = subtotal_of (PlaceOrderRequest.items payload)
    ∧ Order.tax o = Py.fzero
    ∧ Order.total o = Py.fadd (Order.subtotal o) (Order.tax o)
    ∧ Py.to_float total = Ok (Order.total o)
    ∧ (PlaceOrderRequest.items payload = two_lines →
       Order.subtotal o = f25_5 ∧ Order.total o = f25_5
       ∧ total = Py.PyFloat f25_5).
Proof.
  intros Hv Hc. unfold PlaceOrderRequest.valid in Hv.
  pose proof (sum_items _ Hc) as Hsum.
  pose proof (subtotal_ge0 _ Hv Hc) as Hge.
  destruct (PlaceOrderRequest.items payload) as [|i items] eqn:Hitems.
  - eexists _, (Py.PyInt 0). split.
    + eapply place_order_stores; rewrite ?Hitems; [exact Hsum|reflexivity..].
    + do 5 (split; [reflexivity|]). intros Htwo. discriminate.
  - set (s := subtotal_of (i :: items)) in *.
    assert (ge0 s && ge0 Py.fzero && ge0 (Py.fadd s Py.fzero) = true) as Hall.
    { rewrite Hge. simpl. by apply fadd_ge0. }
    eexists _, (Py.PyFloat (Py.fadd s Py.fzero)). split.
    + eapply place_order_stores; rewrite ?Hitems; [exact Hsum|reflexivity|].
      unfold Order.new. cbn [Py.to_float rbind].
      change (Py.float_of_int 0) with (Ok Py.fzero). cbn [rbind].
      rewrite Hall. reflexivity.
    + do 5 (split; [reflexivity|]). intros Htwo.
      cbn [Order.subtotal Order.total]. subst s. rewrite Htwo.
      repeat split; vm_compute; reflexivity.
Qed.

Lemma place_order_totals_witness :
  ∃ o total,
    place_order (order_request two_lines) fresh
    = (Ok {| OrderPlaced.order_id := str (ObjectId 0);
             OrderPlaced.total := total |}, placed empty_store [] o total)
    ∧ Order.subtotal o = f25_5
    ∧ Order.tax o = Py.fzero
    ∧ Order.total o = f25_5
    ∧ total = Py.PyFloat f25_5.
Proof.
  destruct (place_order_totals empty_store [] (order_request two_lines))
    as (o & total & Hrun & _ & _ & Htax & _ & _ & Htwo).
  - vm_compute. reflexivity.
  - vm_compute. reflexivity.
  - destruct (Htwo eq_refl) as (Hs & Ht & Hr).
    exists o, total. repeat split; assumption.
Defined.

(** C1 as stated fails: a request that fits its model, with the store
    available, whose quantity is 2^1024. The product of the quantity and
    the unit price raises [OverflowError]: no order is stored and there
    is no response to hold a total. *)
Lemma place_order_overflow :
  PlaceOrderRequest.valid (order_request huge_quantity) = true
  ∧ post_orders sample_check (order_request huge_quantity) fresh
    = (Raise OverflowError, fresh)
  ∧ place_order (order_request huge_quantity) fresh = (Raise OverflowError, fresh).
Proof. repeat split; vm_compute; reflexivity. Qed.

(** * Validation of an order *)

Lemma ge0_false x :
  ge0 x = false ↔ Py.fltb x Py.fzero = true ∨ x = S754_nan.
Proof.
  destruct x as [[]|[]| |[] m e]; cbn; split; try done;
    try (intros [?|?]; done); auto.
Qed.

Lemma item_invalid i : OrderItem.valid i = false ↔ breaks_bound i.
Proof.
  unfold OrderItem.valid, breaks_bound.
  rewrite andb_false_iff, ge0_false, Z.leb_gt. reflexivity.
Qed.

Lemma request_invalid body :
  PlaceOrderRequest.valid body = false
  ↔ Exists breaks_bound (PlaceOrderRequest.items body).
Proof.
  unfold PlaceOrderRequest.valid.
  induction (PlaceOrderRequest.items body) as [|i items IH]; simpl.
  - split; [done|]. intros H. inversion H.
  - rewrite andb_false_iff, Exists_cons, IH, item_invalid. reflexivity.
Qed.

(** ** What the handler can raise *)

Lemma only_overflow_float_of_int z : only_overflow (Py.float_of_int z).
Proof.
  intros e. unfold Py.float_of_int.
  destruct (binary_normalize _ _ _ _ _); congruence.
Qed.

Lemma only_overflow_to_float a : only_overflow (Py.to_float a).
Proof. destruct a; [apply only_overflow_float_of_int|by intros e]. Qed.

Lemma only_overflow_rbind {A B} (r : result A) (k : A → result B) :
  only_overflow r → (∀ a, only_overflow (k a)) → only_overflow (rbind r k).
Proof.
  intros Hr Hk e. destruct r as [a|e']; simpl; [apply Hk|].
  intros [= <-]. by apply Hr.
Qed.

Lemma only_overflow_Ok {A} (a : A) : only_overflow (Ok a).
Proof. by intros e. Qed.

Lemma only_overflow_add a b : only_overflow (Py.add a b).
Proof.
  destruct a, b; simpl; try apply only_overflow_Ok;
    repeat (apply only_overflow_rbind; [try apply only_overflow_float_of_int;
                                         try apply only_overflow_Ok|intros ?]);
    apply only_overflow_Ok.
Qed.

Lemma only_overflow_mul a b : only_overflow (Py.mul a b).
Proof.
  destruct a, b; simpl; try apply only_overflow_Ok;
    repeat (apply only_overflow_rbind; [try apply only_overflow_float_of_int;
                                         try apply only_overflow_Ok|intros ?]);
    apply only_overflow_Ok.
Qed.

Lemma only_overflow_sum_from {A} (f : A → result Py.number) items :
  (∀ i, only_overflow (f i)) → ∀ acc, only_overflow (Py.sum_from acc f items).
Proof.
  intros Hf. induction items as [|i items IH]; intros acc; simpl.
  - apply only_overflow_Ok.
  - apply only_overflow_rbind; [apply Hf|intros x].
    apply only_overflow_rbind; [apply only_overflow_add|intros acc'].
    apply IH.
Qed.

Lemma Order_new_raises u e its s x t n sn sa sp ex :
  Order.new u e its s x t n sn sa sp = Raise ex →
  ex = OverflowError ∨ ex = ValidationError.
Proof.
  unfold Order.new.
  destruct (Py.to_float s) eqn:Hs; simpl;
    [|intros [= <-]; left; by apply (only_overflow_to_float s)].
  destruct (Py.to_float x) eqn:Hx; simpl;
    [|intros [= <-]; left; by apply (only_overflow_to_float x)].
  destruct (Py.to_float t) eqn:Ht; simpl;
    [|intros [= <-]; left; by apply (only_overflow_to_float t)].
  destruct (_ && _); [done|]. intros [= <-]. by right.
Qed.

Lemma never_raises_bind {A B} e (m : App A) (k : A → App B) :
  never_raises e m → (∀ a, never_raises e (k a)) → never_raises e (bind m k).
Proof.
  intros Hm Hk w. unfold bind. specialize (Hm w).
  destruct (m w) as [[a|e'] w']; [apply Hk|].
  simpl in *. intros [= ->]. by apply Hm.
Qed.

Lemma never_raises_lift {A} e (r : result A) :
  r ≠ Raise e → never_raises e (lift r).
Proof. by intros Hr w. Qed.

Lemma never_raises_ret {A} e (a : A) : never_raises e (ret a).
Proof. by intros w. Qed.

(** The handler never answers with FastAPI's validation error. *)
Lemma place_order_no_422 payload :
  never_raises RequestValidationError (place_order payload).
Proof.
  unfold place_order.
  apply never_raises_bind.
  { intros w. by destruct (require_db_cases w) as [(d & _ & ->)|[_ ->]]. }
  intros _. apply never_raises_bind.
  { apply never_raises_lift. intros H.
    by apply (only_overflow_sum_from line_total _
                (λ i, only_overflow_mul _ _) (Py.PyInt 0)) in H. }
  intros subtotal. apply never_raises_bind.
  { apply never_raises_lift. intros H. by apply only_overflow_add in H. }
  intros total. apply never_raises_bind.
  { apply never_raises_lift. intros H. by apply Order_new_raises in H as [?|?]. }
  intros o. apply never_raises_bind.
  { intros w. unfold create_document. by destruct (db w). }
  intros order_id. apply never_raises_bind; [by intros w|intros _].
  apply never_raises_ret.
Qed.

(** ** Endpoints *)

Lemma endpoint_refuses {A B} (errors : A → list value) instance
    (content : B → value) handler body w :
  errors body ≠ [] →
  endpoint errors instance content handler body w
  = (Raise (if forallb json_compliant (errors body)
            then RequestValidationError else not_json_compliant), w).
Proof.
  intros Hne. unfold endpoint. destruct (errors body) as [|x l]; [done|].
  by destruct (forallb json_compliant (x :: l)).
Qed.

Lemma endpoint_passes {A B} (errors : A → list value) instance
    (content : B → value) handler body w :
  errors body = [] →
  endpoint errors instance content handler body w
  = bind (handler (instance body)) (render content) w.
Proof. intros Hnil. unfold endpoint. by rewrite Hnil. Qed.

Lemma never_raises_render {B} (content : B → value) b :
  never_raises RequestValidationError (render content b).
Proof. intros w. unfold render. by destruct (json_compliant _). Qed.

(** ** The checks of an order *)

Lemma unprintable_spec f :
  unprintable f ↔ ge0 f = false ∧ finite f = false.
Proof.
  unfold unprintable.
  destruct f as [[]|[]| |[] m e]; cbn; split; try done;
    try (intros [?|?]; done); try (intros [? ?]; done); auto.
Qed.

Lemma item_errors_nil i : OrderItem.errors i = [] ↔ OrderItem.valid i = true.
Proof.
  unfold OrderItem.errors, OrderItem.valid.
  destruct (1 <=? OrderItem.quantity i), (ge0 (OrderItem.unit_price i));
    simpl; split; done.
Qed.

Lemma item_errors_compliant i :
  forallb json_compliant (OrderItem.errors i) = false
  ↔ unprintable (OrderItem.unit_price i).
Proof.
  rewrite unprintable_spec. unfold OrderItem.errors.
  destruct (1 <=? OrderItem.quantity i), (ge0 (OrderItem.unit_price i));
    simpl; rewrite ?andb_true_r; split; try done; try (intros [? ?]; done);
    by intros ?.
Qed.

Lemma items_errors_nil items :
  items ≫= OrderItem.errors = [] ↔ forallb OrderItem.valid items = true.
Proof.
  induction items as [|i items IH]; [done|].
  cbn [mbind list_bind forallb]. fold (items ≫= OrderItem.errors).
  rewrite app_nil, IH, item_errors_nil, andb_true_iff. reflexivity.
Qed.

Lemma items_errors_compliant items :
  forallb json_compliant (items ≫= OrderItem.errors) = false
  ↔ Exists (λ i, unprintable (OrderItem.unit_price i)) items.
Proof.
  induction items as [|i items IH].
  - split; [done|]. intros H. inversion H.
  - cbn [mbind list_bind]. fold (items ≫= OrderItem.errors).
    rewrite forallb_app, andb_false_iff, IH, item_errors_compliant, Exists_cons.
    reflexivity.
Qed.

Lemma request_errors check body :
  PlaceOrderRequest.errors check body ≠ [] ↔ fails_validation check body.
Proof.
  unfold PlaceOrderRequest.errors, fails_validation.
  rewrite <- request_invalid. unfold PlaceOrderRequest.valid.
  pose proof (items_errors_nil (PlaceOrderRequest.items body)) as Hitems.
  destruct (check (PlaceOrderRequest.email body)) as [e|]; simpl.
  - destruct (forallb OrderItem.valid _).
    + rewrite (proj2 Hitems eq_refl). split; [done|]. by intros [?|?].
    + split; [by right|]. intros _ Hnil. by apply Hitems in Hnil.
  - split; [by left|done].
Qed.

Lemma request_errors_compliant check body :
  forallb json_compliant (PlaceOrderRequest.errors check body) = false
  ↔ unprintable_price body.
Proof.
  unfold PlaceOrderRequest.errors, unprintable_price.
  rewrite forallb_app, andb_false_iff, items_errors_compliant.
  destruct (check (PlaceOrderRequest.email body)); simpl;
    split; auto; by intros [?|?].
Qed.

Lemma unprintable_breaks_bound i :
  unprintable (OrderItem.unit_price i) → breaks_bound i.
Proof.
  unfold breaks_bound. intros [->| ->]; [by right; right|by right; left].
Qed.

Lemma unprintable_price_fails check body :
  unprintable_price body → fails_validation check body.
Proof.
  intros H. right. unfold unprintable_price in H.
  rewrite Exists_exists in *. destruct H as (i & Hi & Hu).
  exists i. split; [done|]. by apply unprintable_breaks_bound.
Qed.

Lemma post_orders_refuses check body w :
  fails_validation check body →
  post_orders check body w
  = (Raise (if forallb json_compliant (PlaceOrderRequest.errors check body)
            then RequestValidationError else not_json_compliant), w).
Proof.
  intros Hf%request_errors. unfold post_orders. by apply endpoint_refuses.
Qed.

Lemma post_orders_passes check body w :
  ¬ fails_validation check body →
  post_orders check body w
  = bind (place_order (PlaceOrderRequest.instance check body))
      (render OrderPlaced.content) w.
Proof.
  intros Hf. unfold post_orders. apply endpoint_passes.
  destruct (PlaceOrderRequest.errors check body) eqn:He; [done|].
  exfalso. apply Hf, request_errors. by rewrite He.
Qed.

Lemma fails_validation_dec check body :
  fails_validation check body ∨ ¬ fails_validation check body.
Proof.
  rewrite <- request_errors.
  destruct (PlaceOrderRequest.errors check body); [right|left]; naive_solver.
Qed.

(** C4, as the code has it. The order endpoint answers with the
    validation error (422) exactly when the body fails a check of its
    model - the email is no address, some item's quantity is below 1, or
    some item's unit_price is not at least 0 - and the error can be
    written as JSON, which it cannot when a unit_price is NaN or minus
    infinity: the answer is then a server error (500). In both cases the
    request is refused before the handler runs, whatever the state of
    the store, and the world is unchanged. A request with no items
    fails no check of its items. *)
Theorem post_orders_rejects check body w :
  (fst (post_orders check body w) = Raise RequestValidationError
   ↔ fails_validation check body ∧ ¬ unprintable_price body)
  ∧ (fails_validation check body →
     snd (post_orders check body w) = w
     ∧ fst (post_orders check body w) = fst (post_orders check body (offline [])))
  ∧ (fails_validation check body → ¬ unprintable_price body →
     post_orders check body w = (Raise RequestValidationError, w)
     ∧ status_code (fst (post_orders check body w)) = 422)
  ∧ (unprintable_price body →
     post_orders check body w = (Raise not_json_compliant, w)
     ∧ status_code (fst (post_orders check body w)) = 500)
  ∧ (PlaceOrderRequest.items body = [] →
     is_Some (check (PlaceOrderRequest.email body)) →
     fst (post_orders check body w) ≠ Raise RequestValidationError).
Proof.
  assert (fails_validation check body → ¬ unprintable_price body →
          post_orders check body w = (Raise RequestValidationError, w)) as Hclient.
  { intros Hf Hp. rewrite (post_orders_refuses _ _ _ Hf).
    destruct (forallb json_compliant _) eqn:Hc; [done|].
    by apply request_errors_compliant in Hc. }
  assert (unprintable_price body →
          post_orders check body w = (Raise not_json_compliant, w)) as Hserver.
  { intros Hp.
    rewrite (post_orders_refuses _ _ _ (unprintable_price_fails check _ Hp)).
    apply (request_errors_compliant check) in Hp. by rewrite Hp. }
  assert (fst (post_orders check body w) = Raise RequestValidationError
          ↔ fails_validation check body ∧ ¬ unprintable_price body) as Hiff.
  { split.
    - intros Hrej. destruct (fails_validation_dec check body) as [Hf|Hf].
      + split; [done|]. intros Hp. by rewrite (Hserver Hp) in Hrej.
      + rewrite (post_orders_passes _ _ _ Hf) in Hrej.
        exfalso. revert Hrej. apply never_raises_bind.
        * apply place_order_no_422.
        * intros b. apply never_raises_render.
    - intros [Hf Hp]. by rewrite (Hclient Hf Hp). }
  split; [exact Hiff|]. split; [|split; [|split]].
  - intros Hf. by rewrite !(post_orders_refuses _ _ _ Hf).
  - intros Hf Hp. by rewrite (Hclient Hf Hp).
  - intros Hp. by rewrite (Hserver Hp).
  - intros Hnil [e He] [[Hf|Hf] _]%Hiff.
    + congruence.
    + rewrite Hnil in Hf. inversion Hf.
Qed.

Lemma post_orders_rejects_witness :
  post_orders sample_check (order_request [item 0 (Py.float_lit 1 0)]) fresh
  = (Raise RequestValidationError, fresh)
  ∧ post_orders sample_check (no_address two_lines) fresh
    = (Raise RequestValidationError, fresh)
  ∧ post_orders sample_check (order_request [item 1 S754_nan]) fresh
    = (Raise not_json_compliant, fresh).
Proof.
  split; [|split].
  - apply (proj1 (proj2 (proj2 (post_orders_rejects sample_check
                     (order_request [item 0 (Py.float_lit 1 0)]) fresh)))).
    + right. apply Exists_cons_hd. left. simpl. lia.
    + intros H. inversion H as [? ? [Hn|Hn]|? ? Hr]; subst;
        [discriminate Hn|discriminate Hn|inversion Hr].
  - apply (proj1 (proj2 (proj2 (post_orders_rejects sample_check
                     (no_address two_lines) fresh)))).
    + by left.
    + intros H. unfold unprintable_price, no_address, two_lines in H.
      cbn [PlaceOrderRequest.items] in H.
      apply Exists_cons in H as [[H|H]|H]; [discriminate H|discriminate H|].
      apply Exists_cons in H as [[H|H]|H]; [discriminate H|discriminate H|].
      inversion H.
  - apply (proj1 (proj2 (proj2 (proj2 (post_orders_rejects sample_check
                     (order_request [item 1 S754_nan]) fresh))))).
    apply Exists_cons_hd. by left.
Defined.

(** C4 as stated fails. A request with no items is not refused: it is
    handled, and an order without items and with total 0 is stored. And
    a unit_price below 0 is not always answered as a client error: minus
    infinity is answered 500. *)
Lemma post_orders_accepts_no_items :
  PlaceOrderRequest.items (order_request []) = []
  ∧ fst (post_orders sample_check (order_request []) fresh)
    = Ok {| OrderPlaced.order_id := "000000000000000000000000";
            OrderPlaced.total := Py.PyInt 0 |}
  ∧ (fmap (Order.items ∘ fields) ∘ order)
      <$> db (snd (post_orders sample_check (order_request []) fresh))
    = Some [[]]
  ∧ Py.fltb (S754_infinity true) Py.fzero = true
  ∧ status_code
      (fst (post_orders sample_check
              (order_request [item 1 (S754_infinity true)]) fresh))
    = 500.
Proof. repeat split; vm_compute; reflexivity. Qed.

(** ** The checks of a product *)

Lemma product_invalid p : Product.valid p = false ↔ breaks_product_bound p.
Proof.
  unfold Product.valid, breaks_product_bound.
  rewrite andb_false_iff, ge0_false.
  destruct (Product.stock_qty p) as [n|]; simpl.
  - rewrite Z.leb_gt. split.
    + intros [[?|?]|?]; eauto.
    + intros [?|[?|(n' & [= <-] & ?)]]; auto.
  - split.
    + intros [[?|?]|?]; auto. discriminate.
    + intros [?|[?|(n' & ? & ?)]]; auto. discriminate.
Qed.

Lemma product_errors_nil p : Product.errors p = [] ↔ Product.valid p = true.
Proof.
  unfold Product.errors, Product.valid.
  destruct (ge0 (Product.price p)), (Product.stock_qty p) as [n|]; simpl;
    try destruct (0 <=? n); split; done.
Qed.

Lemma product_errors p : Product.errors p ≠ [] ↔ breaks_product_bound p.
Proof.
  rewrite <- product_invalid, product_errors_nil.
  by destruct (Product.valid p).
Qed.

Lemma product_errors_compliant p :
  forallb json_compliant (Product.errors p) = false
  ↔ unprintable (Product.price p).
Proof.
  rewrite unprintable_spec. unfold Product.errors.
  destruct (ge0 (Product.price p)), (Product.stock_qty p) as [n|]; simpl;
    try destruct (0 <=? n); simpl; rewrite ?andb_true_r;
    split; try done; try (intros [? ?]; done); by intros ?.
Qed.

Lemma unprintable_breaks_product_bound p :
  unprintable (Product.price p) → breaks_product_bound p.
Proof.
  unfold breaks_product_bound. intros [->| ->]; [by right; left|by left].
Qed.

Lemma post_products_refuses p w :
  breaks_product_bound p →
  post_products p w
  = (Raise (if forallb json_compliant (Product.errors p)
            then RequestValidationError else not_json_compliant), w).
Proof.
  intros Hb%product_errors. unfold post_products. by apply endpoint_refuses.
Qed.

Lemma render_created r w :
  render Created.content r w = (Ok r, w).
Proof. reflexivity. Qed.

Lemma post_products_passes p w :
  ¬ breaks_product_bound p →
  post_products p w = create_product p w.
Proof.
  intros Hb. unfold post_products. rewrite endpoint_passes.
  - unfold bind, id. by destruct (create_product p w) as [[r|e] w'].
  - destruct (Product.errors p) eqn:He; [done|].
    exfalso. apply Hb, product_errors. by rewrite He.
Qed.

Lemma breaks_product_bound_dec p :
  breaks_product_bound p ∨ ¬ breaks_product_bound p.
Proof.
  rewrite <- product_errors.
  destruct (Product.errors p); [right|left]; naive_solver.
Qed.

(** * The store is not configured *)

(** Every handler that needs the store answers 500 "Database not
    configured" when the handle is [None], and leaves the world as it
    is. The two endpoints that take a body validate it first: a body
    that passes is answered in that way, and a body that fails a check
    is answered with the validation error, or with the failure to write
    that error, and never by the handler. *)
Theorem not_configured_everywhere out
    (su : SignupRequest.t) (lg : LoginRequest.t) (c : Category.t)
    (p : Product.t) (cid sid q : option string) (limit : Z)
    (check : EmailStr) (po : PlaceOrderRequest.t) :
  not_configured = HTTPException 500 "Database not configured"
  ∧ signup su (offline out) = (Raise not_configured, offline out)
  ∧ login lg (offline out) = (Raise not_configured, offline out)
  ∧ list_categories (offline out) = (Raise not_configured, offline out)
  ∧ create_category c (offline out) = (Raise not_configured, offline out)
  ∧ create_product p (offline out) = (Raise not_configured, offline out)
  ∧ list_products cid sid q limit (offline out)
    = (Raise not_configured, offline out)
  ∧ place_order po (offline out) = (Raise not_configured, offline out)
  ∧ (¬ fails_validation check po →
     post_orders check po (offline out) = (Raise not_configured, offline out))
  ∧ (fails_validation check po →
     snd (post_orders check po (offline out)) = offline out
     ∧ (fst (post_orders check po (offline out)) = Raise RequestValidationError
        ∨ fst (post_orders check po (offline out)) = Raise not_json_compliant))
  ∧ (¬ breaks_product_bound p →
     post_products p (offline out) = (Raise not_configured, offline out))
  ∧ (breaks_product_bound p →
     snd (post_products p (offline out)) = offline out
     ∧ (fst (post_products p (offline out)) = Raise RequestValidationError
        ∨ fst (post_products p (offline out)) = Raise not_json_compliant)).
Proof.
  do 8 (split; [reflexivity|]). split; [|split; [|split]].
  - intros Hf. by rewrite (post_orders_passes _ _ _ Hf).
  - intros Hf. rewrite (post_orders_refuses _ _ _ Hf).
    split; [done|]. destruct (forallb _ _); auto.
  - intros Hb. by rewrite (post_products_passes _ _ Hb).
  - intros Hb. rewrite (post_products_refuses _ _ Hb).
    split; [done|]. destruct (forallb _ _); auto.
Qed.

(** * Failure writes nothing *)

Lemma all_or_nothing_read {A} (m : App A) : read_only m → all_or_nothing m.
Proof. intros Hm w e _. apply Hm. Qed.


















(** * Signup *)

Lemma emails_inserted d (u : User.t) :
  emails (snd (insert_one u d)) = emails d ++ [User.email u].
Proof. unfold emails. simpl. by rewrite fmap_app. Qed.

Lemma stored_user_None_emails d e : stored_user d e = None ↔ e ∉ emails d.
Proof.
  rewrite stored_user_None. unfold emails. rewrite list_elem_of_fmap. split.
  - intros Hall (u & -> & Hu). by apply (Hall u).
  - intros Hno u Hu He. apply Hno. exists u. by split.
Qed.

(** [signup] is its lookup followed by its insertion. *)
Lemma signup_steps payload w :
  signup payload w
  = bind (signup_lookup payload) (λ _, signup_insert payload) w.
Proof.
  unfold signup, signup_lookup, signup_insert, bind.
  destruct (require_db w) as [[[]|e] w0]; [|done].
  destruct (find_one _ w0) as [[existing|e] w1]; [|done].
  by destruct (raise_if _ _ w1) as [[[]|e] w2].
Qed.

Lemma signup_lookup_run d out payload :
  signup_lookup payload (online d out)
  = (match stored_user d (SignupRequest.email payload) with
     | Some _ => Raise (HTTPException 400 "Email already registered")
     | None => Ok ()
     end, online d out).
Proof.
  unfold signup_lookup.
  rewrite (bind_ok _ _ _ _ _ (require_db_online d out)).
  rewrite (bind_ok _ _ _ _ _ (find_by_email _ d out)).
  by destruct (stored_user d _).
Qed.

Lemma signup_insert_run d out payload :
  signup_insert payload (online d out)
  = (Ok {| SignupResponse.user_id := str (ObjectId (next_id d));
           SignupResponse.email := SignupRequest.email payload |},
     online (snd (insert_one (User.new (SignupRequest.name payload)
                                (SignupRequest.email payload)
                                (SignupRequest.password payload)) d)) out).
Proof. reflexivity. Qed.

(** The uniqueness of emails rests on the order of the store calls, and
    on nothing else. [signup] is a lookup followed by an insertion. When
    two signups for one unregistered email run one after the other, the
    second is refused, and emails that were distinct stay distinct. When
    the two lookups come before the two insertions, as they can for
    concurrent requests, both signups succeed and the email is stored
    twice. *)
Theorem signup_uniqueness_needs_order d out (p q : SignupRequest.t) :
  SignupRequest.email q = SignupRequest.email p →
  SignupRequest.email p ∉ emails d →
  (∀ payload w,
     signup payload w
     = bind (signup_lookup payload) (λ _, signup_insert payload) w)
  ∧ (∃ r d1,
       signup p (online d out) = (Ok r, online d1 out)
       ∧ signup q (online d1 out)
         = (Raise (HTTPException 400 "Email already registered"), online d1 out)
       ∧ emails d1 ≡ₚ SignupRequest.email p :: emails d
       ∧ (NoDup (emails d) → NoDup (emails d1)))
  ∧ (∃ r1 d1 r2 d2,
       signup_lookup p (online d out) = (Ok (), online d out)
       ∧ signup_lookup q (online d out) = (Ok (), online d out)
       ∧ signup_insert p (online d out) = (Ok r1, online d1 out)
       ∧ signup_insert q (online d1 out) = (Ok r2, online d2 out)
       ∧ emails d2
         ≡ₚ SignupRequest.email p :: SignupRequest.email p :: emails d
       ∧ ¬ NoDup (emails d2)).
Proof.
  intros Hq Hfresh. split; [apply signup_steps|].
  pose proof (proj2 (stored_user_None_emails d _) Hfresh) as Hnone.
  split.
  - eexists _, _. rewrite signup_run, Hnone. split; [reflexivity|].
    rewrite signup_run, Hq. cbv zeta.
    set (d1 := snd (insert_one _ d)).
    assert (emails d1 = emails d ++ [SignupRequest.email p]) as Hd1
      by apply emails_inserted.
    destruct (stored_user d1 (SignupRequest.email p)) eqn:Hagain.
    + split; [reflexivity|]. rewrite Hd1.
      split; [by rewrite Permutation_app_comm|].
      intros Hnd. apply NoDup_app. repeat split; [done| |apply NoDup_singleton].
      by intros e He ->%list_elem_of_singleton.
    + apply stored_user_None_emails in Hagain. exfalso. apply Hagain.
      rewrite Hd1. apply elem_of_app. right.
      by apply list_elem_of_singleton.
  - eexists _, _, _, _. rewrite !signup_lookup_run, Hq, Hnone.
    do 2 (split; [reflexivity|]). rewrite !signup_insert_run.
    do 2 (split; [reflexivity|]). rewrite !emails_inserted. cbn [User.new User.email].
    rewrite Hq. split.
    + rewrite <- app_assoc. by rewrite Permutation_app_comm.
    + rewrite <- app_assoc. intros Hnd%NoDup_app. destruct Hnd as (_ & _ & Hnd).
      apply NoDup_cons in Hnd as [Hnd _]. apply Hnd. by apply list_elem_of_singleton.
Qed.

Lemma signup_uniqueness_needs_order_witness :
  (∃ r d1,
     signup ann fresh = (Ok r, online d1 [])
     ∧ signup ann (online d1 [])
       = (Raise (HTTPException 400 "Email already registered"), online d1 [])
     ∧ emails d1 ≡ₚ ["ann@example.com"])
  ∧ (∃ r1 d1 r2 d2,
       signup_insert ann fresh = (Ok r1, online d1 [])
       ∧ signup_insert ann (online d1 []) = (Ok r2, online d2 [])
       ∧ emails d2 ≡ₚ ["ann@example.com"; "ann@example.com"]).
Proof.
  destruct (signup_uniqueness_needs_order empty_store [] ann ann)
    as (_ & (r & d1 & H1 & H2 & H3 & _) & (r1 & d1' & r2 & d2 & _ & _ & H4 & H5 & H6 & _)).
  - reflexivity.
  - vm_compute. apply not_elem_of_nil.
  - split.
    + exists r, d1. by repeat split.
    + exists r1, d1', r2, d2. by repeat split.
Defined.

(** A successful signup appends one user document that holds the name
    and the email as given, the password unchanged under
    [hashed_password], the role "customer" and the active flag; the
    other collections are as before. *)
Theorem signup_stores_password_verbatim d out (payload : SignupRequest.t) r w' :
  signup payload (online d out) = (Ok r, w') →
  ∃ d',
    w' = online d' out
    ∧ user d'
      = user d
        ++ [ {| _id := ObjectId (next_id d);
                fields :=
                  {| User.name := SignupRequest.name payload;
                     User.email := SignupRequest.email payload;
                     User.hashed_password := SignupRequest.password payload;
                     User.role := "customer";
                     User.is_active := true |} |} ]
    ∧ SignupResponse.user_id r = str (ObjectId (next_id d))
    ∧ category d' = category d ∧ product d' = product d ∧ order d' = order d.
Proof.
  rewrite signup_run.
  destruct (stored_user d (SignupRequest.email payload)); [discriminate|].
  intros [= <- <-]. eexists. split; [reflexivity|]. by repeat split.
Qed.

Lemma signup_stores_password_verbatim_witness :
  ∃ d',
    ann_signed_up = online d' []
    ∧ user d'
      = [ {| _id := ObjectId 0;
             fields :=
               {| User.name := "Ann"; User.email := "ann@example.com";
                  User.hashed_password := "secret"; User.role := "customer";
                  User.is_active := true |} |} ]
    ∧ category d' = [] ∧ product d' = [] ∧ order d' = [].
Proof.
  destruct (signup_stores_password_verbatim empty_store [] ann
              {| SignupResponse.user_id := "000000000000000000000000";
                 SignupResponse.email := "ann@example.com" |} ann_signed_up)
    as (d' & Hw & Hu & _ & Hc & Hp & Ho).
  - vm_compute. reflexivity.
  - exists d'. repeat split; assumption.
Defined.

(** * Identifiers *)

Lemma is_hex_hex_digit n : is_hex (hex_digit n) = true.
Proof.
  destruct n as [|p]; [reflexivity|].
  do 4 (try destruct p as [p|p|]); reflexivity.
Qed.

Lemma hex_acc_all_hex width : ∀ n acc,
  all_hex acc = true → all_hex (hex_acc width n acc) = true.
Proof.
  induction width as [|width IH]; intros n acc Hacc; cbn [hex_acc]; [done|].
  apply IH. cbn [all_hex]. by rewrite is_hex_hex_digit.
Qed.

Lemma hex_acc_length width : ∀ n acc,
  String.length (hex_acc width n acc) = (width + String.length acc)%nat.
Proof.
  induction width as [|width IH]; intros n acc; cbn [hex_acc]; [done|].
  rewrite IH. cbn [String.length]. lia.
Qed.

Lemma is_hex_not_space c : is_hex c = true → is_space c = false.
Proof. destruct c as [[] [] [] [] [] [] [] []]; vm_compute; congruence. Qed.

Lemma fromhex_ok_pairs k : ∀ s,
  String.length s = (2 * k)%nat → all_hex s = true → fromhex_ok s = true.
Proof.
  induction k as [|k IH]; intros s Hlen Hhex.
  - destruct s; [reflexivity|discriminate].
  - destruct s as [|a [|b s]]; simpl in Hlen; try lia.
    simpl in Hhex. apply andb_true_iff in Hhex as [Ha [Hb Hs]%andb_true_iff].
    simpl. rewrite (is_hex_not_space _ Ha), Ha, Hb. simpl.
    apply IH; [lia|done].
Qed.

(** The string of a store identifier is a well-formed identifier. *)
Lemma str_ObjectId_valid n : ObjectId_valid (str (ObjectId n)) = true.
Proof.
  unfold ObjectId_valid, str. rewrite hex_acc_length.
  cbn [String.length Nat.add Nat.eqb andb].
  apply (fromhex_ok_pairs 12).
  - by rewrite hex_acc_length.
  - by apply hex_acc_all_hex.
Qed.

Lemma str_ObjectId_nonempty n : str (ObjectId n) ≠ "".
Proof.
  intros H. apply (f_equal String.length) in H.
  unfold str in H. rewrite hex_acc_length in H. discriminate.
Qed.

Lemma create_category_run d out c :
  create_category c (online d out)
  = (Ok {| Created.id := str (ObjectId (next_id d)) |},
     online (snd (insert_one c d)) out).
Proof. reflexivity. Qed.

(** An identifier that the API has returned for a new category passes
    the check of [create_product]: a product that names it as its
    category_id is inserted, not refused. *)
Theorem issued_category_id_is_accepted d out (c : Category.t) (p : Product.t) r w' :
  create_category c (online d out) = (Ok r, w') →
  Product.category_id p = Created.id r →
  ObjectId_valid (Created.id r) = true
  ∧ ∃ r' w'',
      create_product p w' = (Ok r', w'')
      ∧ (∃ d'', db w'' = Some d''
                ∧ product d''
                  = product d
                    ++ [ {| _id := ObjectId (N.succ (next_id d)); fields := p |} ]).
Proof.
  rewrite create_category_run. intros [= <- <-] Hid. cbn [Created.id] in Hid.
  split; [apply str_ObjectId_valid|].
  eexists _, _. split.
  - rewrite create_product_run, Hid, str_ObjectId_valid.
    by rewrite andb_false_r.
  - eexists. split; reflexivity.
Qed.

Lemma issued_category_id_is_accepted_witness :
  ObjectId_valid "000000000000000000000000" = true
  ∧ ∃ r' w'',
      create_product (gadget "hub" "000000000000000000000000")
        (snd (create_category (cat "A" None) fresh)) = (Ok r', w'')
      ∧ (∃ d'', db w'' = Some d''
                ∧ product d''
                  = [ {| _id := ObjectId 1;
                         fields := gadget "hub" "000000000000000000000000" |} ]).
Proof.
  apply (issued_category_id_is_accepted empty_store [] (cat "A" None)
           (gadget "hub" "000000000000000000000000")
           {| Created.id := "000000000000000000000000" |}).
  - vm_compute. reflexivity.
  - reflexivity.
Defined.

(** * Creating a category, then listing *)

Lemma filter_no_clause {A} `{Schema A} re (l : list (Document A)) :
  List.filter (doc_matches re ∅) l = l.
Proof.
  induction l as [|c l IH]; [done|]. cbn [List.filter].
  unfold doc_matches at 1. by rewrite dict_matches_empty, IH.
Qed.

Lemma get_categories_online d out :
  get_documents (A := Category.t) None None (online d out)
  = (Ok (take 100 (category d)), online d out).
Proof.
  rewrite get_documents_online by apply filter_supported_empty.
  cbn [default]. by rewrite filter_no_clause.
Qed.

(** A category that has just been created is listed under the key of
    its parent_id ([None] when it has none), with the identifier that
    the creation returned and together with the categories that were
    listed there; every other key holds the categories it held. No
    parent needs to exist. Nothing is said of the order within a key,
    which is the store's. (As long as the listing's retrieval is not
    cut: fewer than 100 categories were stored.) *)
Theorem created_category_is_listed d out (c : Category.t) before :
  (length (category d) < 100)%nat →
  list_categories (online d out) = (Ok before, online d out) →
  ∃ new_id w' after group,
    create_category c (online d out) = (Ok {| Created.id := new_id |}, w')
    ∧ list_categories w' = (Ok after, w')
    ∧ after !! Category.parent_id c = Some group
    ∧ group ≡ₚ {| _id := IdStr new_id; fields := c |}
               :: default [] (before !! Category.parent_id c)
    ∧ (∀ k, k ≠ Category.parent_id c →
            option_Forall2 (≡ₚ) (after !! k) (before !! k)).
Proof.
  intros Hlen Hbefore.
  rewrite (list_categories_run _ _ (get_categories_online d out)) in Hbefore.
  rewrite take_ge in Hbefore by lia. injection Hbefore as <-.
  eexists _, _, _, _. split; [apply create_category_run|].
  split.
  { apply list_categories_run. rewrite get_categories_online.
    cbn [insert_one snd with_documents Category_schema category documents].
    rewrite take_ge by (rewrite length_app; simpl; lia). reflexivity. }
  rewrite foldl_app. cbn [foldl].
  split; [|split].
  - rewrite setdefault_append_lookup.
    cbn [stringify fields _id str]. by rewrite decide_True.
  - by rewrite Permutation_app_comm.
  - intros k Hk. rewrite setdefault_append_lookup.
    cbn [stringify fields]. rewrite decide_False by done.
    destruct (_ !! k); by constructor.
Qed.

Lemma created_category_is_listed_witness :
  ∃ new_id w' after group,
    create_category (cat "A" None) fresh = (Ok {| Created.id := new_id |}, w')
    ∧ list_categories w' = (Ok after, w')
    ∧ after !! None = Some group
    ∧ group ≡ₚ [ {| _id := IdStr new_id; fields := cat "A" None |} ].
Proof.
  destruct (created_category_is_listed empty_store [] (cat "A" None) ∅)
    as (new_id & w' & after & group & H1 & H2 & H3 & H4 & _).
  - simpl. lia.
  - reflexivity.
  - by exists new_id, w', after, group.
Defined.

(** * Creating a product, then listing *)

Lemma selected_by_category c p :
  c ≠ "" → selected (Some c) None None p = String.eqb (Product.category_id p) c.
Proof.
  intros Hc. unfold selected. rewrite (truthy_Some _ Hc). cbn [Py.truthy default].
  by rewrite !andb_true_r.
Qed.

(** A product that has just been created under a well-formed
    category_id is in the listing for that category_id, with the
    identifier that the creation returned and together with the products
    that were listed before, when the listing before it held fewer than
    [limit] products. Nothing is said of its place in the listing, which
    is the store's. *)
Theorem created_product_is_listed d out (p : Product.t) limit before :
  Product.category_id p ≠ "" →
  ObjectId_valid (Product.category_id p) = true →
  list_products (Some (Product.category_id p)) None None limit (online d out)
  = (Ok before, online d out) →
  (length before < Z.to_nat limit)%nat →
  ∃ new_id w' after,
    create_product p (online d out) = (Ok {| Created.id := new_id |}, w')
    ∧ list_products (Some (Product.category_id p)) None None limit w'
      = (Ok after, w')
    ∧ after ≡ₚ {| _id := IdStr new_id; fields := p |} :: before.
Proof.
  intros Hne Hvalid Hbefore Hlen.
  rewrite list_products_fragment in Hbefore by done. injection Hbefore as <-.
  rewrite length_fmap, length_take in Hlen.
  eexists _, _, _. split.
  { rewrite create_product_run, Hvalid. by rewrite andb_false_r. }
  split.
  { rewrite list_products_fragment by done. reflexivity. }
  cbn [insert_one snd with_documents Product_schema product documents].
  rewrite List.filter_app. cbn [List.filter fields].
  rewrite (selected_by_category _ _ Hne), String.eqb_refl.
  rewrite !take_ge by (rewrite ?length_app; simpl; lia).
  rewrite fmap_app. by rewrite Permutation_app_comm.
Qed.

Lemma created_product_is_listed_witness :
  ∃ new_id w' after,
    create_product (gadget "hub" "0123456789abcdef01234567") fresh
    = (Ok {| Created.id := new_id |}, w')
    ∧ list_products (Some "0123456789abcdef01234567") None None 100 w'
      = (Ok after, w')
    ∧ after ≡ₚ [ {| _id := IdStr new_id;
                    fields := gadget "hub" "0123456789abcdef01234567" |} ].
Proof.
  apply (created_product_is_listed empty_store []
           (gadget "hub" "0123456789abcdef01234567") 100 []).
  - discriminate.
  - reflexivity.
  - reflexivity.
  - simpl. lia.
Defined.

(** * Validation of a product *)

Lemma never_raises_raise_if cond e e' :
  e' ≠ e → never_raises e (raise_if cond e').
Proof.
  intros Hne w. unfold raise_if. destruct cond; simpl; [|done].
  intros [= ->]. done.
Qed.

Lemma create_product_no_422 p :
  never_raises RequestValidationError (create_product p).
Proof.
  unfold create_product.
  apply never_raises_bind.
  { intros w. by destruct (require_db_cases w) as [(d & _ & ->)|[_ ->]]. }
  intros _. apply never_raises_bind.
  { destruct (negb _); [by apply never_raises_raise_if|apply never_raises_ret]. }
  intros _. apply never_raises_bind.
  { intros w. unfold create_document. by destruct (db w). }
  intros doc_id. apply never_raises_ret.
Qed.

(** The product endpoint answers with the validation error (422)
    exactly when the body breaks a bound of [Product] - the price is not
    at least 0, or a stock_qty is given and is negative - and the error
    can be written as JSON, which it cannot when the price is NaN or
    minus infinity: the answer is then a server error (500). Either way
    this comes before the check of category_id and before any access to
    the store: the world is unchanged, whatever the category_id and
    whether or not the store is configured. *)
Theorem post_products_rejects (p : Product.t) w :
  (fst (post_products p w) = Raise RequestValidationError
   ↔ breaks_product_bound p ∧ ¬ unprintable (Product.price p))
  ∧ (breaks_product_bound p →
     snd (post_products p w) = w
     ∧ fst (post_products p w) = fst (post_products p (offline [])))
  ∧ (breaks_product_bound p → ¬ unprintable (Product.price p) →
     post_products p w = (Raise RequestValidationError, w)
     ∧ status_code (fst (post_products p w)) = 422)
  ∧ (unprintable (Product.price p) →
     post_products p w = (Raise not_json_compliant, w)
     ∧ status_code (fst (post_products p w)) = 500).
Proof.
  assert (breaks_product_bound p → ¬ unprintable (Product.price p) →
          post_products p w = (Raise RequestValidationError, w)) as Hclient.
  { intros Hb Hp. rewrite (post_products_refuses _ _ Hb).
    destruct (forallb json_compliant _) eqn:Hc; [done|].
    by apply product_errors_compliant in Hc. }
  assert (unprintable (Product.price p) →
          post_products p w = (Raise not_json_compliant, w)) as Hserver.
  { intros Hp.
    rewrite (post_products_refuses _ _ (unprintable_breaks_product_bound _ Hp)).
    apply product_errors_compliant in Hp. by rewrite Hp. }
  split; [|split; [|split]].
  - split.
    + intros Hrej. destruct (breaks_product_bound_dec p) as [Hb|Hb].
      * split; [done|]. intros Hp. by rewrite (Hserver Hp) in Hrej.
      * rewrite (post_products_passes _ _ Hb) in Hrej.
        by apply create_product_no_422 in Hrej.
    + intros [Hb Hp]. by rewrite (Hclient Hb Hp).
  - intros Hb. by rewrite !(post_products_refuses _ _ Hb).
  - intros Hb Hp. by rewrite (Hclient Hb Hp).
  - intros Hp. by rewrite (Hserver Hp).
Qed.

Lemma post_products_rejects_witness :
  post_products
    {| Product.name := "hub"; Product.description := None;
       Product.price := Py.float_lit 1 0; Product.sku := None;
       Product.image_url := None; Product.category_id := "not-a-valid-id";
       Product.subcategory_id := None; Product.in_stock := true;
       Product.stock_qty := Some (-1) |} (offline [])
  = (Raise RequestValidationError, offline [])
  ∧ post_products (gadget "hub" "") (offline [])
    = (Raise not_configured, offline [])
  ∧ status_code
      (fst (post_products
              {| Product.name := "hub"; Product.description := None;
                 Product.price := S754_nan; Product.sku := None;
                 Product.image_url := None; Product.category_id := "";
                 Product.subcategory_id := None; Product.in_stock := true;
                 Product.stock_qty := None |} fresh))
    = 500.
Proof.
  split; [|split].
  - apply (proj1 (proj2 (proj2 (post_products_rejects _ (offline []))))).
    + right. right. exists (-1). split; [reflexivity|lia].
    + by intros [?|?].
  - reflexivity.
  - apply (proj2 (proj2 (proj2 (post_products_rejects _ fresh)))). by left.
Defined.

(** * Letter-case of the query *)

Lemma lower_idemp c : lower (lower c) = lower c.
Proof. destruct c as [[] [] [] [] [] [] [] []]; reflexivity. Qed.

Lemma plain_lower c : plain (lower c) = plain c.
Proof. destruct c as [[] [] [] [] [] [] [] []]; reflexivity. Qed.

Lemma is_dot_lower c : Ascii.eqb (lower c) "." = Ascii.eqb c ".".
Proof. destruct c as [[] [] [] [] [] [] [] []]; reflexivity. Qed.

Lemma is_newline_lower c : Ascii.eqb (lower c) "010" = Ascii.eqb c "010".
Proof. destruct c as [[] [] [] [] [] [] [] []]; reflexivity. Qed.

Lemma match_here_casefold p : ∀ s,
  match_here true p (casefold s) = match_here true p s.
Proof.
  induction p as [|a p IH]; intros s; [by destruct s|].
  destruct s as [|c s]; [done|]. cbn [casefold match_here]. rewrite IH.
  f_equal. destruct a as [|l]; cbn [atom_matches].
  - by rewrite is_newline_lower.
  - by rewrite lower_idemp.
Qed.

Lemma search_from_casefold p : ∀ s,
  search_from true p (casefold s) = search_from true p s.
Proof.
  induction s as [|c s IH].
  - reflexivity.
  - cbn [casefold search_from].
    change (String (lower c) (casefold s)) with (casefold (String c s)).
    by rewrite match_here_casefold, IH.
Qed.

Lemma parse_casefold pat :
  parse (casefold pat)
  = fmap (M := option) (fmap (M := list) lower_atom) (parse pat).
Proof.
  induction pat as [|c pat IH]; [done|]. cbn [casefold parse].
  rewrite is_dot_lower, plain_lower, IH.
  destruct (Ascii.eqb c "."); [by destruct (parse pat)|].
  destruct (plain c); [|done]. by destruct (parse pat).
Qed.

Lemma match_here_lower_atoms p : ∀ s,
  match_here true (lower_atom <$> p) s = match_here true p s.
Proof.
  induction p as [|a p IH]; intros s; [done|].
  destruct s as [|c s]; [done|]. cbn [fmap list_fmap match_here].
  rewrite <- IH. f_equal. destruct a as [|l]; cbn [lower_atom atom_matches]; [done|].
  by rewrite lower_idemp.
Qed.

Lemma search_from_lower_atoms p : ∀ s,
  search_from true (lower_atom <$> p) s = search_from true p s.
Proof.
  induction s as [|c s IH]; cbn [search_from]; rewrite match_here_lower_atoms;
    [done|by rewrite IH].
Qed.

Lemma casefold_empty pat : casefold pat = "" ↔ pat = "".
Proof. by destruct pat. Qed.

Lemma regex_search_i_casefold_pattern pat s :
  regex_search_i (casefold pat) s = regex_search_i pat s.
Proof.
  unfold regex_search_i, compile. rewrite parse_casefold.
  destruct (parse pat) as [p|]; [|done]. cbn. apply search_from_lower_atoms.
Qed.

Lemma regex_search_i_casefold_name pat s :
  regex_search_i pat (casefold s) = regex_search_i pat s.
Proof.
  unfold regex_search_i, compile.
  destruct (parse pat) as [p|]; [|done]. cbn. apply search_from_casefold.
Qed.

Lemma compile_casefold pat :
  is_Some (compile (casefold pat) "i") ↔ is_Some (compile pat "i").
Proof.
  unfold compile. rewrite parse_casefold.
  destruct (parse pat) as [p|]; cbn; [|done]. split; eauto.
Qed.

Lemma truthy_casefold pat : Py.truthy (Some (casefold pat)) = Py.truthy (Some pat).
Proof. by destruct pat. Qed.

Lemma selected_casefold cid sid pat p :
  selected cid sid (Some (casefold pat)) p = selected cid sid (Some pat) p.
Proof.
  unfold selected. rewrite truthy_casefold. cbn [from_option default]. unfold id.
  by rewrite regex_search_i_casefold_pattern.
Qed.

(** For a pattern of plain characters and [.], the letter-case of [q]
    itself does not matter, and neither does the letter-case of the
    product names: a listing with [q] in lower case is the listing with
    [q] as given, and a name matches exactly when its lower-case form
    does. *)
Theorem query_letter_case cid sid pat limit w :
  is_Some (compile pat "i") →
  is_Some (compile (casefold pat) "i")
  ∧ list_products cid sid (Some (casefold pat)) limit w
    = list_products cid sid (Some pat) limit w
  ∧ (∀ name, regex_search_i pat (casefold name) = regex_search_i pat name).
Proof.
  intros Hpat. pose proof (proj2 (compile_casefold pat) Hpat) as Hlow.
  split; [exact Hlow|].
  split; [|intros name; apply regex_search_i_casefold_name].
  destruct w as [[d|] out]; [|reflexivity].
  change {| db := Some d; stdout := out |} with (online d out).
  rewrite !list_products_fragment by (intros _; assumption).
  do 4 f_equal. apply List.filter_ext. intros p. apply selected_casefold.
Qed.

Lemma query_letter_case_witness :
  list_products None None (Some "usb c.ble") 100 cable_and_hub
  = list_products None None (Some "USB C.ble") 100 cable_and_hub
  ∧ regex_search_i "USB C.ble" "usb cable" = regex_search_i "USB C.ble" "USB Cable".
Proof.
  destruct (query_letter_case None None "USB C.ble" 100 cable_and_hub)
    as (_ & Hlist & Hname).
  - vm_compute. by eexists.
  - split; [exact Hlist|]. apply (Hname "USB Cable").
Defined.

(** * What the handler of an order computes *)

Lemma line_total_Ok i x : line_total i = Ok x → converts (OrderItem.quantity i) = true.
Proof.
  unfold line_total, Py.mul, Py.to_float, converts.
  by destruct (Py.float_of_int (OrderItem.quantity i)).
Qed.

Lemma sum_from_Ok items : ∀ acc r,
  Py.sum_from acc line_total items = Ok r →
  forallb (λ i, converts (OrderItem.quantity i)) items = true.
Proof.
  induction items as [|i items IH]; intros acc r; [done|].
  cbn [Py.sum_from forallb].
  destruct (line_total i) as [x|e] eqn:Hx; [|done]. cbn [rbind].
  destruct (Py.add acc x) as [acc'|e]; [|done]. cbn [rbind].
  intros Hrest. by rewrite (line_total_Ok _ _ Hx), (IH _ _ Hrest).
Qed.

Lemma sum_overflows items :
  forallb (λ i, converts (OrderItem.quantity i)) items = false →
  Py.sum line_total items = Raise OverflowError.
Proof.
  intros Hc. unfold Py.sum.
  destruct (Py.sum_from (Py.PyInt 0) line_total items) as [r|e] eqn:Hs.
  - apply sum_from_Ok in Hs. congruence.
  - f_equal.
    by apply (only_overflow_sum_from line_total items
                (λ i, only_overflow_mul _ _) (Py.PyInt 0)).
Qed.

Lemma place_order_raises_overflow d out payload :
  forallb (λ i, converts (OrderItem.quantity i)) (PlaceOrderRequest.items payload)
  = false →
  place_order payload (online d out) = (Raise OverflowError, online d out).
Proof.
  intros Hc. unfold place_order.
  rewrite (bind_ok _ _ _ _ _ (require_db_online d out)).
  unfold lift at 1. unfold bind at 1. by rewrite (sum_overflows _ Hc).
Qed.

(** * What a placed order leaves behind *)

Lemma Order_new_fields u e its s x t n sn sa sp o :
  Order.new u e its s x t n sn sa sp = Ok o →
  Order.user_id o = u ∧ Order.email o = e ∧ Order.items o = its
  ∧ Order.status o = "placed" ∧ Order.notes o = n
  ∧ Order.shipping_name o = sn ∧ Order.shipping_address o = sa
  ∧ Order.shipping_phone o = sp.
Proof.
  unfold Order.new.
  destruct (Py.to_float s); [|done]. destruct (Py.to_float x); [|done].
  destruct (Py.to_float t); [|done]. cbn [rbind].
  destruct (_ && _); [|done]. intros [= <-]. by repeat split.
Qed.

Lemma place_order_Ok d out payload r w' :
  place_order payload (online d out) = (Ok r, w') →
  ∃ subtotal o,
    Py.sum line_total (PlaceOrderRequest.items payload) = Ok subtotal
    ∧ Py.add subtotal (Py.PyInt 0) = Ok (OrderPlaced.total r)
    ∧ Order.new (PlaceOrderRequest.user_id payload) (PlaceOrderRequest.email payload)
      (PlaceOrderRequest.items payload) subtotal (Py.PyInt 0) (OrderPlaced.total r)
      (PlaceOrderRequest.notes payload) (PlaceOrderRequest.shipping_name payload)
      (PlaceOrderRequest.shipping_address payload)
      (PlaceOrderRequest.shipping_phone payload) = Ok o
    ∧ OrderPlaced.order_id r = str (ObjectId (next_id d))
    ∧ w' = placed d out o (OrderPlaced.total r).
Proof.
  intros H.
  destruct (Py.sum line_total (PlaceOrderRequest.items payload))
    as [subtotal|e] eqn:Hsum.
  2: { unfold place_order in H.
       rewrite (bind_ok _ _ _ _ _ (require_db_online d out)) in H.
       unfold lift at 1 in H. unfold bind at 1 in H. rewrite Hsum in H.
       discriminate. }
  destruct (Py.add subtotal (Py.PyInt 0)) as [total|e] eqn:Hadd.
  2: { unfold place_order in H.
       rewrite (bind_ok _ _ _ _ _ (require_db_online d out)) in H.
       unfold lift at 1 in H. unfold bind at 1 in H. rewrite Hsum in H.
       unfold lift at 1 in H. unfold bind at 1 in H. rewrite Hadd in H.
       discriminate. }
  destruct (Order.new (PlaceOrderRequest.user_id payload)
              (PlaceOrderRequest.email payload) (PlaceOrderRequest.items payload)
              subtotal (Py.PyInt 0) total (PlaceOrderRequest.notes payload)
              (PlaceOrderRequest.shipping_name payload)
              (PlaceOrderRequest.shipping_address payload)
              (PlaceOrderRequest.shipping_phone payload)) as [o|e] eqn:Hnew.
  2: { unfold place_order in H.
       rewrite (bind_ok _ _ _ _ _ (require_db_online d out)) in H.
       unfold lift at 1 in H. unfold bind at 1 in H. rewrite Hsum in H.
       unfold lift at 1 in H. unfold bind at 1 in H. rewrite Hadd in H.
       unfold lift at 1 in H. unfold bind at 1 in H. rewrite Hnew in H.
       discriminate. }
  rewrite (place_order_stores _ _ _ _ _ _ Hsum Hadd Hnew) in H.
  injection H as <- <-. exists subtotal, o. by repeat split.
Qed.

(** A placed order changes nothing but the order collection and the
    output: users, categories and products (their stock with them) are
    as before. The order collection gains one document at its end, a
    copy of the request's user_id, email, items, notes and shipping
    fields with the status "placed", under the identifier that is
    returned; and one line is printed, with that identifier, the email
    and the total of the response. *)
Theorem placed_order_is_a_snapshot d out (payload : PlaceOrderRequest.t) r w' :
  place_order payload (online d out) = (Ok r, w') →
  ∃ o d',
    w' = online d'
           (out ++ [order_line (OrderPlaced.order_id r)
                      (PlaceOrderRequest.email payload) (OrderPlaced.total r)])
    ∧ order d' = order d ++ [ {| _id := ObjectId (next_id d); fields := o |} ]
    ∧ user d' = user d ∧ category d' = category d ∧ product d' = product d
    ∧ OrderPlaced.order_id r = str (ObjectId (next_id d))
    ∧ Order.user_id o = PlaceOrderRequest.user_id payload
    ∧ Order.email o = PlaceOrderRequest.email payload
    ∧ Order.items o = PlaceOrderRequest.items payload
    ∧ Order.status o = "placed"
    ∧ Order.notes o = PlaceOrderRequest.notes payload
    ∧ Order.shipping_name o = PlaceOrderRequest.shipping_name payload
    ∧ Order.shipping_address o = PlaceOrderRequest.shipping_address payload
    ∧ Order.shipping_phone o = PlaceOrderRequest.shipping_phone payload.
Proof.
  intros (subtotal & o & _ & _ & Hnew & Hid & ->)%place_order_Ok.
  apply Order_new_fields in Hnew as (Hu & He & Hi & Hs & Hn & Hsn & Hsa & Hsp).
  exists o, (snd (insert_one o d)). split.
  { unfold placed, online, order_line. by rewrite Hid, He. }
  by repeat split.
Qed.

Lemma placed_order_is_a_snapshot_witness :
  ∃ o d',
    snd (place_order (order_request two_lines) fresh)
    = online d'
        ([] ++ [order_line "000000000000000000000000" "ann@example.com"
                  (Py.PyFloat f25_5)])
    ∧ order d' = [] ++ [ {| _id := ObjectId 0; fields := o |} ]
    ∧ user d' = [] ∧ category d' = [] ∧ product d' = []
    ∧ Order.items o = two_lines
    ∧ Order.status o = "placed".
Proof.
  destruct (placed_order_is_a_snapshot empty_store [] (order_request two_lines)
              {| OrderPlaced.order_id := "000000000000000000000000";
                 OrderPlaced.total := Py.PyFloat f25_5 |}
              (snd (place_order (order_request two_lines) fresh)))
    as (o & d' & Hw & Ho & Hu & Hc & Hp & _ & _ & _ & Hi & Hs & _).
  - vm_compute. reflexivity.
  - exists o, d'. repeat split; assumption.
Defined.

(** * Diagnostics *)

(** [GET /test] never raises and changes nothing, whatever the driver
    answers. The two configuration flags it returns depend on the
    environment alone (a variable that is unset or empty is "Not Set"):
    what the handler wrote into them while probing the store is
    overwritten. The connection status is "Connected" exactly when the
    handle exists; at most ten collection names are returned, and none
    without a handle; the initial "Not Available" is never what is
    returned. *)
Theorem test_database_reports driver environ w :
  ∃ r,
    test_database driver environ w = (Ok r, w)
    ∧ TestResponse.backend r = "✅ Running"
    ∧ TestResponse.database_url r
      = Some (if Py.truthy (environ !! "DATABASE_URL")
              then "✅ Set" else "❌ Not Set")
    ∧ TestResponse.database_name r
      = Some (if Py.truthy (environ !! "DATABASE_NAME")
              then "✅ Set" else "❌ Not Set")
    ∧ TestResponse.connection_status r
      = match db w with
        | Some _ => "Connected"
        | None => "Not Connected"
        end
    ∧ (length (TestResponse.collections r) ≤ 10)%nat
    ∧ (db w = None →
       TestResponse.collections r = []
       ∧ TestResponse.database r = "⚠️  Available but not initialized")
    ∧ (∀ d names, db w = Some d → list_collection_names driver d = Names names →
       TestResponse.collections r = take 10 names
       ∧ TestResponse.database r = "✅ Connected & Working")
    ∧ (∀ d message, db w = Some d →
       list_collection_names driver d = Failed message →
       TestResponse.collections r = []
       ∧ TestResponse.database r
         = "⚠️  Connected but Error: " +:+ String.substring 0 50 message)
    ∧ TestResponse.database r ≠ "❌ Not Available".
Proof.
  eexists. split; [reflexivity|].
  cbn [TestResponse.backend TestResponse.database_url TestResponse.database_name
       TestResponse.connection_status TestResponse.collections
       TestResponse.database].
  unfold probe, getenv_truthy.
  destruct (db w) as [d|].
  - destruct (list_collection_names driver d) as [names|msg] eqn:Hreply;
      cbn [TestResponse.backend TestResponse.database_url
           TestResponse.database_name TestResponse.connection_status
           TestResponse.collections TestResponse.database];
      (do 4 (split; [reflexivity|])); (split; [rewrite ?length_take; cbn [length]; lia|]);
      (split; [discriminate|]).
    + split; [|split; [|discriminate]].
      * intros d' names' [= <-]. rewrite Hreply. by intros [= <-].
      * intros d' msg' [= <-]. rewrite Hreply. discriminate.
    + split; [|split; [|simpl; discriminate]].
      * intros d' names' [= <-]. rewrite Hreply. discriminate.
      * intros d' msg' [= <-]. rewrite Hreply. by intros [= <-].
  - cbn [TestResponse.backend TestResponse.database_url
         TestResponse.database_name TestResponse.connection_status
         TestResponse.collections TestResponse.database].
    do 4 (split; [reflexivity|]). split; [simpl; lia|].
    split; [done|]. split; [discriminate|]. split; discriminate.
Qed.

(** * A tax of zero *)

Lemma fadd_keeps_positive_zero acc x :
  nonneg acc = true → acc ≠ S754_zero true → nonneg x = true →
  nonneg (Py.fadd acc x) = true ∧ Py.fadd acc x ≠ S754_zero true.
Proof.
  intros Hacc Hnz Hx.
  destruct acc as [[]|[]| |[] ma ea], x as [[]|[]| |[] mx ex];
    simpl in *; try done.
  pose proof (binary_round_signed Py.prec Py.emax false
                (fst (shl_align ma ea (Z.min ea ex)) + fst (shl_align mx ex (Z.min ea ex)))
                (Z.min ea ex)) as Hs.
  change (Py.fadd (S754_finite false ma ea) (S754_finite false mx ex))
    with (binary_round Py.prec Py.emax false
            (fst (shl_align ma ea (Z.min ea ex)) + fst (shl_align mx ex (Z.min ea ex)))
            (Z.min ea ex)).
  split; [by apply signed_nonneg|].
  intros Heq. rewrite Heq in Hs. done.
Qed.

Lemma foldl_keeps_positive_zero lines : ∀ acc,
  nonneg acc = true → acc ≠ S754_zero true →
  Forall (λ x, ge0 x = true) lines →
  foldl Py.fadd acc lines ≠ S754_zero true.
Proof.
  induction lines as [|x lines IH]; intros acc Hacc Hnz Hall; [done|].
  inversion Hall as [|? ? Hx Hrest]; subst. rewrite ge0_nonneg in Hx.
  destruct (fadd_keeps_positive_zero acc x Hacc Hnz Hx) as [H1 H2].
  cbn [foldl]. by apply IH.
Qed.

Lemma fadd_fzero_r s :
  nonneg s = true → s ≠ S754_zero true → Py.fadd s Py.fzero = s.
Proof. by destruct s as [[]|[]| |[] m e]. Qed.

(** As the tax is 0, the total of a stored order is its subtotal, down
    to the sign of a zero, and the total of the response is that value:
    for every request that fits its model and is answered. *)
Theorem total_is_subtotal d out (payload : PlaceOrderRequest.t) r w' :
  PlaceOrderRequest.valid payload = true →
  place_order payload (online d out) = (Ok r, w') →
  ∃ o,
    w' = placed d out o (OrderPlaced.total r)
    ∧ Order.total o = Order.subtotal o
    ∧ Order.subtotal o = subtotal_of (PlaceOrderRequest.items payload)
    ∧ Py.to_float (OrderPlaced.total r) = Ok (Order.subtotal o).
Proof.
  intros Hv (subtotal & o & Hsum & Hadd & Hnew & _ & ->)%place_order_Ok.
  exists o. split; [reflexivity|].
  pose proof (sum_from_Ok _ _ _ Hsum) as Hc.
  rewrite (sum_items _ Hc) in Hsum. unfold PlaceOrderRequest.valid in Hv.
  pose proof (subtotal_ge0 _ Hv Hc) as Hge.
  assert (subtotal_of (PlaceOrderRequest.items payload) ≠ S754_zero true) as Hnz.
  { apply foldl_keeps_positive_zero; [done..|].
    apply Forall_fmap, Forall_forall. intros i Hi%list_elem_of_In.
    rewrite forallb_forall in Hv, Hc. apply line_ge0; auto. }
  rewrite ge0_nonneg in Hge.
  destruct (PlaceOrderRequest.items payload) as [|i items].
  - injection Hsum as <-. change (Ok (Py.PyInt 0) = Ok (OrderPlaced.total r)) in Hadd.
    injection Hadd as Ht. rewrite <- Ht in *.
    injection Hnew as <-. by repeat split.
  - set (s := subtotal_of (i :: items)) in *.
    injection Hsum as <-. cbn [Py.add Py.to_float rbind] in Hadd.
    change (Py.float_of_int 0) with (Ok Py.fzero) in Hadd. cbn [rbind] in Hadd.
    rewrite (fadd_fzero_r _ Hge Hnz) in Hadd.
    injection Hadd as Ht. rewrite <- Ht in *.
    unfold Order.new in Hnew. cbn [Py.to_float rbind] in Hnew.
    change (Py.float_of_int 0) with (Ok Py.fzero) in Hnew. cbn [rbind] in Hnew.
    destruct (_ && _); [|done]. injection Hnew as <-. by repeat split.
Qed.

Lemma total_is_subtotal_witness :
  ∃ o,
    snd (place_order (order_request two_lines) fresh)
    = placed empty_store [] o (Py.PyFloat f25_5)
    ∧ Order.total o = Order.subtotal o
    ∧ Order.subtotal o = subtotal_of two_lines
    ∧ Py.to_float (Py.PyFloat f25_5) = Ok (Order.subtotal o).
Proof.
  apply (total_is_subtotal empty_store [] (order_request two_lines)
           {| OrderPlaced.order_id := "000000000000000000000000";
              OrderPlaced.total := Py.PyFloat f25_5 |}
           (snd (place_order (order_request two_lines) fresh))).
  - reflexivity.
  - vm_compute. reflexivity.
Defined.

(** * Outcomes of an order *)

Lemma subtotal_keeps_positive_zero items :
  forallb OrderItem.valid items = true →
  forallb (λ i, converts (OrderItem.quantity i)) items = true →
  subtotal_of items ≠ S754_zero true.
Proof.
  intros Hv Hc. apply foldl_keeps_positive_zero; [done..|].
  apply Forall_fmap, Forall_forall. intros i Hi%list_elem_of_In.
  rewrite forallb_forall in Hv, Hc. apply line_ge0; auto.
Qed.

Lemma ge0_cases x : ge0 x = true → finite x = true ∨ x = S754_infinity false.
Proof. destruct x as [[]|[]| |[] m e]; cbn; auto; discriminate. Qed.

(** The handler on a request that fits its model and whose quantities
    convert: the total that is answered is [total_of] the items. *)
Lemma place_order_answers d out payload :
  PlaceOrderRequest.valid payload = true →
  forallb (λ i, converts (OrderItem.quantity i)) (PlaceOrderRequest.items payload)
  = true →
  ge0 (subtotal_of (PlaceOrderRequest.items payload)) = true
  ∧ ∃ o,
      place_order payload (online d out)
      = (Ok {| OrderPlaced.order_id := str (ObjectId (next_id d));
               OrderPlaced.total := total_of (PlaceOrderRequest.items payload) |},
         placed d out o (total_of (PlaceOrderRequest.items payload))).
Proof.
  intros Hv Hc. unfold PlaceOrderRequest.valid in Hv.
  pose proof (sum_items _ Hc) as Hsum.
  pose proof (subtotal_ge0 _ Hv Hc) as Hge.
  pose proof (subtotal_keeps_positive_zero _ Hv Hc) as Hnz.
  split; [exact Hge|].
  destruct (PlaceOrderRequest.items payload) as [|i items] eqn:Hitems.
  - eexists. eapply place_order_stores; rewrite ?Hitems; [exact Hsum|reflexivity..].
  - cbn [total_of]. set (s := subtotal_of (i :: items)) in *.
    assert (Py.fadd s Py.fzero = s) as Hzero.
    { apply fadd_fzero_r; [|done]. by rewrite <- ge0_nonneg. }
    eexists.
    eapply place_order_stores; rewrite ?Hitems; [exact Hsum| |].
    + cbn [Py.add Py.to_float rbind].
      change (Py.float_of_int 0) with (Ok Py.fzero). cbn [rbind].
      by rewrite Hzero.
    + unfold Order.new. cbn [Py.to_float rbind].
      change (Py.float_of_int 0) with (Ok Py.fzero). cbn [rbind].
      rewrite Hge. reflexivity.
Qed.

Lemma passes_valid check body :
  ¬ fails_validation check body →
  PlaceOrderRequest.valid (PlaceOrderRequest.instance check body) = true.
Proof.
  intros Hf. change (PlaceOrderRequest.valid body = true).
  destruct (PlaceOrderRequest.valid body) eqn:Hv; [done|].
  exfalso. apply Hf. right. by apply request_invalid.
Qed.

(** With the store available the order endpoint has five outcomes and
    no other. The body fails a check and is answered 422; or it fails
    one with a unit_price that the error cannot show, and the answer is
    a server error. Or the body passes, but some quantity has no
    [float], and the handler raises [OverflowError] (an unhandled
    error). In these three cases the world is unchanged. Or an order is
    stored and answered with its total; or an order is stored, its total
    is infinite, and the answer cannot be written: the request fails
    with a server error after the order has been stored and printed.
    The constructor of [Order] never refuses, and the store is never
    found missing. *)
Theorem post_orders_outcomes check body d out :
  (fails_validation check body ∧ ¬ unprintable_price body
   ∧ post_orders check body (online d out)
     = (Raise RequestValidationError, online d out))
  ∨ (unprintable_price body
     ∧ post_orders check body (online d out)
       = (Raise not_json_compliant, online d out))
  ∨ (¬ fails_validation check body
     ∧ Exists (λ i, converts (OrderItem.quantity i) = false)
         (PlaceOrderRequest.items body)
     ∧ post_orders check body (online d out) = (Raise OverflowError, online d out))
  ∨ (¬ fails_validation check body
     ∧ Forall (λ i, converts (OrderItem.quantity i) = true)
         (PlaceOrderRequest.items body)
     ∧ json_compliant (VNum (total_of (PlaceOrderRequest.items body))) = true
     ∧ ∃ o,
         post_orders check body (online d out)
         = (Ok {| OrderPlaced.order_id := str (ObjectId (next_id d));
                  OrderPlaced.total := total_of (PlaceOrderRequest.items body) |},
            placed d out o (total_of (PlaceOrderRequest.items body))))
  ∨ (¬ fails_validation check body
     ∧ Forall (λ i, converts (OrderItem.quantity i) = true)
         (PlaceOrderRequest.items body)
     ∧ total_of (PlaceOrderRequest.items body) = Py.PyFloat (S754_infinity false)
     ∧ ∃ o,
         post_orders check body (online d out)
         = (Raise not_json_compliant,
            placed d out o (total_of (PlaceOrderRequest.items body)))).
Proof.
  destruct (fails_validation_dec check body) as [Hf|Hf].
  { rewrite (post_orders_refuses _ _ _ Hf).
    destruct (forallb json_compliant _) eqn:Hj.
    - left. split; [done|]. split; [|done].
      intros Hp%(request_errors_compliant check). congruence.
    - right. left. split; [|done]. by apply (request_errors_compliant check). }
  do 2 right. rewrite (post_orders_passes _ _ _ Hf).
  pose proof (passes_valid _ _ Hf) as Hv.
  change (PlaceOrderRequest.items body)
    with (PlaceOrderRequest.items (PlaceOrderRequest.instance check body)).
  set (payload := PlaceOrderRequest.instance check body) in *.
  destruct (forallb (λ i, converts (OrderItem.quantity i))
              (PlaceOrderRequest.items payload)) eqn:Hc.
  - right.
    assert (Forall (λ i, converts (OrderItem.quantity i) = true)
              (PlaceOrderRequest.items payload)) as Hall.
    { apply Forall_forall. intros i Hi%list_elem_of_In.
      rewrite forallb_forall in Hc. by apply Hc. }
    destruct (place_order_answers d out payload Hv Hc) as (Hge & o & Hrun).
    unfold bind. rewrite Hrun. unfold render.
    cbn [OrderPlaced.content OrderPlaced.order_id OrderPlaced.total
         json_compliant forallb snd].
    rewrite andb_true_r.
    destruct (json_compliant (VNum (total_of (PlaceOrderRequest.items payload))))
      eqn:Hj.
    + left. split; [done|]. split; [done|]. split; [done|]. by exists o.
    + right. split; [done|]. split; [done|]. split; [|by exists o].
      destruct (PlaceOrderRequest.items payload) as [|i items]; [done|].
      cbn [total_of VNum json_compliant] in *.
      destruct (ge0_cases _ Hge) as [Hfin| ->]; [congruence|done].
  - left. split; [done|]. split.
    + apply Exists_exists.
      assert (¬ Forall (λ i, converts (OrderItem.quantity i) = true)
                (PlaceOrderRequest.items payload)) as Hn.
      { intros Hall. rewrite Forall_forall in Hall.
        assert (forallb (λ i, converts (OrderItem.quantity i))
                  (PlaceOrderRequest.items payload) = true); [|congruence].
        apply forallb_forall. intros i Hi%list_elem_of_In. by apply Hall. }
      apply not_Forall_Exists in Hn; [|intros i; apply _].
      apply Exists_exists in Hn as (i & Hi & Hni).
      exists i. split; [done|]. by apply not_true_is_false.
    + unfold bind. by rewrite (place_order_raises_overflow _ _ _ Hc).
Qed.
